(** * Expression-logical-calculator: a shallow embedding of [main.cpp]

    The program reads one expression, splits it into tokens with a regular
    expression, builds a tree by recursive descent and evaluates the tree to
    a [long long].  The development follows the source top to bottom:
    characters and the regular expressions, [stoll], the [Expression]
    classes with their [check] and [calculate] members, the [Parser] with its
    iterator, and [main]. *)

From Stdlib Require Import ZArith List Bool Ascii String Lia.
Import ListNotations.

Local Open Scope string_scope.

(** ** Outcomes

    A C++ call either returns, or leaves through an exception, or runs into
    behaviour the language leaves undefined.  [OutOfFuel] belongs to the
    model only: the recursive descent is written with a recursion budget, and
    [parse_total] below shows the budget [Parser] hands out is never used up. *)

Inductive undefined : Type :=
| DerefEnd      (* [*token] with [token == tokens.end()] *)
| IncrEnd       (* [token++] with [token == tokens.end()] *)
| DivByZero     (* [r1 / r2] with [r2 == 0] *)
| DivOverflow.  (* [LLONG_MIN / -1] *)

Inductive failure : Type :=
| Thrown (what : string)      (* [throw exception(what)] *)
| OutOfRange                  (* [std::out_of_range] leaving [stoll] *)
| Undefined (u : undefined)
| OutOfFuel.

Inductive outcome (A : Type) : Type :=
| Ok (a : A)
| Err (f : failure).

Arguments Ok {A} a.
Arguments Err {A} f.

Definition obind {A B : Type} (m : outcome A) (k : A -> outcome B) : outcome B :=
  match m with
  | Ok a => k a
  | Err f => Err f
  end.

(** The four kinds of failure the specification names, as the program
    signals them.  The program has no exception for a division by zero. *)
Definition LexError : failure := Thrown "wrong syntax".
Definition SyntaxError : failure := Thrown "syntax error (primary)".

Definition is_EvalError (f : failure) : bool :=
  match f with
  | Thrown w =>
      (w =? "logical NONE") || (w =? "relation NONE")
      || (w =? "factor NONE") || (w =? "term NONE")
  | _ => false
  end.

(** ** Characters *)

Definition is_digit (c : ascii) : bool :=
  (48 <=? nat_of_ascii c)%nat && (nat_of_ascii c <=? 57)%nat.

Definition is_upper (c : ascii) : bool :=
  (65 <=? nat_of_ascii c)%nat && (nat_of_ascii c <=? 90)%nat.

(** [tolower] of the "C" locale. *)
Definition to_lower (c : ascii) : ascii :=
  if is_upper c then ascii_of_nat (nat_of_ascii c + 32) else c.

(** [isspace] of the "C" locale: space and the controls 9 to 13. *)
Definition is_space (c : ascii) : bool :=
  (nat_of_ascii c =? 32)%nat
  || ((9 <=? nat_of_ascii c)%nat && (nat_of_ascii c <=? 13)%nat).

Definition digit_value (c : ascii) : Z := Z.of_nat (nat_of_ascii c) - 48.

Fixpoint lower (s : string) : string :=
  match s with
  | "" => ""
  | String c s' => String (to_lower c) (lower s')
  end.

(** [_strcmpi(a, b) == 0] *)
Definition strcmpi_eq (a b : string) : bool := lower a =? lower b.

(** ** The regular expressions

    Every [regex] of the program is an alternation of literals, one-character
    classes and [[0-9]+], compiled with [regex_constants::icase].  A matcher
    takes the text at the current position and returns the matched text with
    what follows it. *)

Definition matcher : Type := string -> option (string * string).

(** A literal, compared without case. *)
Fixpoint match_literal (lit s : string) : option (string * string) :=
  match lit with
  | "" => Some ("", s)
  | String l lit' =>
      match s with
      | "" => None
      | String c s' =>
          if Ascii.eqb (to_lower l) (to_lower c) then
            match match_literal lit' s' with
            | Some (m, rest) => Some (String c m, rest)
            | None => None
            end
          else None
      end
  end.

(** An ordered alternation: the first alternative that matches wins. *)
Fixpoint match_first (alts : list matcher) (s : string) : option (string * string) :=
  match alts with
  | [] => None
  | m :: alts' =>
      match m s with
      | Some r => Some r
      | None => match_first alts' s
      end
  end.

Definition match_alt (lits : list string) : matcher :=
  match_first (map match_literal lits).

(** A bracket expression listing single characters. *)
Definition match_class (cls : list ascii) : matcher := fun s =>
  match s with
  | "" => None
  | String c s' =>
      if existsb (fun k => Ascii.eqb (to_lower k) (to_lower c)) cls
      then Some (String c "", s')
      else None
  end.

(** [[0-9]+], greedy. *)
Fixpoint span_digits (s : string) : string * string :=
  match s with
  | "" => ("", "")
  | String c s' =>
      if is_digit c then
        let '(ds, rest) := span_digits s' in (String c ds, rest)
      else ("", s)
  end.

Definition match_digits : matcher := fun s =>
  match span_digits s with
  | ("", _) => None
  | (ds, rest) => Some (ds, rest)
  end.

Definition keywords : list string := ["and"; "or"; "xor"].
Definition rel2 : list string := ["<="; ">="; "/="; "!="].
Definition rel1 : list ascii := [">"; "<"; "="]%char.
Definition arith : list ascii := ["+"; "-"; "*"; "/"]%char.
Definition parens : list ascii := ["("; ")"]%char.

(** The [token] regex of [Parser::tokenize]:
    [(and|or|xor)|(<=|>=|\/=|!=)|([><=])|([\+\-\*\/])|([0-9]+)|([()])]. *)
Definition token_regex : matcher :=
  match_first
    [ match_alt keywords; match_alt rel2; match_class rel1;
      match_class arith; match_digits; match_class parens ].

(** [regex_search(s, m, e)]: the match at the leftmost position that has one;
    the result is [m[0]] and [m.suffix()]. *)
Fixpoint regex_search (e : matcher) (s : string) : option (string * string) :=
  match e s with
  | Some r => Some r
  | None =>
      match s with
      | "" => None
      | String _ s' => regex_search e s'
      end
  end.

(** [regex_match(s, e)]: some alternative matches all of [s]. *)
Definition full_match (m : matcher) (s : string) : bool :=
  match m s with
  | Some (_, "") => true
  | _ => false
  end.

Definition regex_match_alts (alts : list matcher) (s : string) : bool :=
  existsb (fun m => full_match m s) alts.

(** ** [stoll]

    [std::stoll] hands the text to [strtoll] in base 10: leading white space,
    an optional sign, then the longest run of digits.  No digit at all is
    [std::invalid_argument], a value outside [long long] is
    [std::out_of_range]. *)

Inductive stoll_result : Type :=
| StollValue (v : Z)
| StollInvalid
| StollOutOfRange.

Definition LLONG_MAX : Z := 9223372036854775807.
Definition LLONG_MIN : Z := -9223372036854775808.

Fixpoint skip_space (s : string) : string :=
  match s with
  | "" => ""
  | String c s' => if is_space c then skip_space s' else s
  end.

Fixpoint digits_value (acc : Z) (s : string) : Z :=
  match s with
  | "" => acc
  | String c s' =>
      if is_digit c then digits_value (acc * 10 + digit_value c) s' else acc
  end.

Definition starts_with_digit (s : string) : bool :=
  match s with
  | "" => false
  | String c _ => is_digit c
  end.

(** The optional sign: whether it is a minus, and the text after it. *)
Definition split_sign (s : string) : bool * string :=
  match s with
  | String "+" r => (false, r)
  | String "-" r => (true, r)
  | _ => (false, s)
  end.

Definition stoll (s : string) : stoll_result :=
  let '(neg, s2) := split_sign (skip_space s) in
  if starts_with_digit s2 then
    let v := if neg : bool then (- digits_value 0 s2)%Z else digits_value 0 s2 in
    if ((LLONG_MIN <=? v) && (v <=? LLONG_MAX))%Z then StollValue v
    else StollOutOfRange
  else StollInvalid.

(** ** The [Expression] classes

    [Logical], [Relation], [Factor] and [Term] carry the operator as the
    token text and own two sub-trees.  [Parentesized] holds an [Expression]
    by value, that is an object of the base class itself. *)

Inductive Expression : Type :=
| Logical (op : string) (left right : Expression)
| Relation (op : string) (left right : Expression)
| Factor (op : string) (left right : Expression)
| Term (op : string) (left right : Expression)
| Integer (value : Z)
| Parentesized.

(** [long long] arithmetic as the machine does it, on two's complement: a
    sum, difference or product that leaves the range wraps around. *)
Definition wrap64 (z : Z) : Z := ((z + 2 ^ 63) mod 2 ^ 64 - 2 ^ 63)%Z.

Definition in_ll (z : Z) : Prop := (LLONG_MIN <= z <= LLONG_MAX)%Z.

(** [regex_match(op, "(and|or|xor)")] with [icase] *)
Definition Logical_check (op : string) : bool :=
  regex_match_alts (map match_literal keywords) op.

(** [regex_match(op, "(<=|>=|\/=|!=)|([><=])")] with [icase] *)
Definition Relation_check (op : string) : bool :=
  regex_match_alts (map match_literal rel2 ++ [match_class rel1]) op.

Definition Factor_check (op : string) : bool := (op =? "*") || (op =? "/").

Definition Term_check (op : string) : bool := (op =? "+") || (op =? "-").

Definition of_bool (b : bool) : Z := if b then 1%Z else 0%Z.

Definition Logical_calculate (op : string) (r1 r2 : Z) : outcome Z :=
  if strcmpi_eq op "and" then Ok (of_bool ((0 <? r1)%Z && (0 <? r2)%Z))
  else if strcmpi_eq op "or" then Ok (of_bool ((0 <? r1)%Z || (0 <? r2)%Z))
  else if strcmpi_eq op "xor" then
    Ok (of_bool (xorb (negb (r1 =? 0)%Z) (negb (r2 =? 0)%Z)))
  else Err (Thrown "logical NONE").

Definition Relation_calculate (op : string) (r1 r2 : Z) : outcome Z :=
  if op =? "<" then Ok (of_bool (r1 <? r2)%Z)
  else if op =? "<=" then Ok (of_bool (r1 <=? r2)%Z)
  else if op =? ">" then Ok (of_bool (r1 >? r2)%Z)
  else if op =? ">=" then Ok (of_bool (r1 >=? r2)%Z)
  else if op =? "==" then Ok (of_bool (r1 =? r2)%Z)
  else if (op =? "!=") || (op =? "/=") then Ok (of_bool (negb (r1 =? r2)%Z))
  else Err (Thrown "relation NONE").

(** The division is the native one: nothing looks at [r2] first. *)
Definition ll_div (r1 r2 : Z) : outcome Z :=
  if (r2 =? 0)%Z then Err (Undefined DivByZero)
  else if ((r1 =? LLONG_MIN) && (r2 =? -1))%Z then Err (Undefined DivOverflow)
  else Ok (Z.quot r1 r2).

Definition Factor_calculate (op : string) (r1 r2 : Z) : outcome Z :=
  if op =? "*" then Ok (wrap64 (r1 * r2))
  else if op =? "/" then ll_div r1 r2
  else Err (Thrown "factor NONE").

Definition Term_calculate (op : string) (r1 r2 : Z) : outcome Z :=
  if op =? "+" then Ok (wrap64 (r1 + r2))
  else if op =? "-" then Ok (wrap64 (r1 - r2))
  else Err (Thrown "term NONE").

Fixpoint calculate (e : Expression) : outcome Z :=
  match e with
  | Logical op l r =>
      obind (calculate l) (fun r1 =>
      obind (calculate r) (fun r2 => Logical_calculate op r1 r2))
  | Relation op l r =>
      obind (calculate l) (fun r1 =>
      obind (calculate r) (fun r2 => Relation_calculate op r1 r2))
  | Factor op l r =>
      obind (calculate l) (fun r1 =>
      obind (calculate r) (fun r2 => Factor_calculate op r1 r2))
  | Term op l r =>
      obind (calculate l) (fun r1 =>
      obind (calculate r) (fun r2 => Term_calculate op r1 r2))
  | Integer v => Ok v
  | Parentesized => Err (Thrown "calculate not implemented")
  end.

(** ** [Parser::tokenize]

    [while (regex_search(s, m, token)) { tokens.push_back(m[0]); s = m.suffix(); }]
    Every match is at least one character long, so the loop runs at most
    [length s] times. *)

Fixpoint scan (fuel : nat) (s : string) : list string :=
  match fuel with
  | O => []
  | S fuel' =>
      match regex_search token_regex s with
      | Some (m, rest) => m :: scan fuel' rest
      | None => []
      end
  end.

Definition tokens_of (s : string) : list string := scan (String.length s) s.

Definition tokenize (s : string) : outcome (list string) :=
  let tokens := tokens_of s in
  if (List.length tokens =? 0)%nat then Err (Thrown "wrong syntax")
  else Ok tokens.

(** ** [Parser]

    The [tokens] list is filled once by the constructor; [token] walks it.
    The iterator is modelled by its index, [tokens.end()] being the length.
    A member function is a function from the iterator before the call to
    the outcome together with the iterator after it. *)

Section Parser.

Variable tokens : list string.

Definition parser (A : Type) : Type := nat -> outcome (A * nat).

Definition ret {A : Type} (a : A) : parser A := fun token => Ok (a, token).

Definition raise {A : Type} (f : failure) : parser A := fun _ => Err f.

Definition bind {A B : Type} (m : parser A) (k : A -> parser B) : parser B :=
  fun token =>
    match m token with
    | Ok (a, token') => k a token'
    | Err f => Err f
    end.

Local Notation "x <- m ;; k" := (bind m (fun x => k))
  (at level 61, m at next level, right associativity).
Local Notation "m ;;; k" := (bind m (fun _ => k))
  (at level 61, right associativity).

(** [*token] *)
Definition deref : parser string := fun token =>
  match nth_error tokens token with
  | Some t => Ok (t, token)
  | None => Err (Undefined DerefEnd)
  end.

(** [token++] *)
Definition incr : parser unit := fun token =>
  if (token <? List.length tokens)%nat then Ok (tt, S token)
  else Err (Undefined IncrEnd).

(** [string op; if (token != tokens.end()) op = *token;] *)
Definition current_op : parser string := fun token =>
  match nth_error tokens token with
  | Some t => Ok (t, token)
  | None => Ok ("", token)
  end.

(** The [while (true)] loop shared by the four binary levels: [check] is
    the level's class test, [node] its constructor and [operand] the parser
    of the next level. *)
Fixpoint fold_operators (fuel : nat) (check : string -> bool)
    (node : string -> Expression -> Expression -> Expression)
    (operand : parser Expression) (left : Expression) : parser Expression :=
  match fuel with
  | O => raise OutOfFuel
  | S fuel' =>
      op <- current_op ;;
      if check op then
        incr ;;;
        right <- operand ;;
        fold_operators fuel' check node operand (node op left right)
      else ret left
  end.

Definition loop_fuel : nat := S (List.length tokens).

Definition parseFactor_with (parsePrimary : parser Expression) : parser Expression :=
  left <- parsePrimary ;;
  fold_operators loop_fuel Factor_check Factor parsePrimary left.

Definition parseTerm_with (parsePrimary : parser Expression) : parser Expression :=
  left <- parseFactor_with parsePrimary ;;
  fold_operators loop_fuel Term_check Term (parseFactor_with parsePrimary) left.

Definition parseRelation_with (parsePrimary : parser Expression) : parser Expression :=
  left <- parseTerm_with parsePrimary ;;
  fold_operators loop_fuel Relation_check Relation (parseTerm_with parsePrimary) left.

Definition parseLogical_with (parsePrimary : parser Expression) : parser Expression :=
  left <- parseRelation_with parsePrimary ;;
  fold_operators loop_fuel Logical_check Logical (parseRelation_with parsePrimary) left.

(** [parsePrimary]: the [try] block converts the token and steps over it;
    the handler of [std::invalid_argument] deals with a parenthesis.
    [fuel] bounds the nesting of [parse] inside [parsePrimary]. *)
Fixpoint parsePrimary (fuel : nat) : parser Expression :=
  match fuel with
  | O => raise OutOfFuel
  | S fuel' =>
      t <- deref ;;
      match stoll t with
      | StollValue v => incr ;;; ret (Integer v)
      | StollOutOfRange => raise OutOfRange
      | StollInvalid =>
          t' <- deref ;;
          if t' =? "(" then
            incr ;;;
            result <- parseLogical_with (parsePrimary fuel') ;;
            incr ;;;   (* skip ")" *)
            ret result
          else raise SyntaxError
      end
  end.

Definition parseFactor (fuel : nat) := parseFactor_with (parsePrimary fuel).
Definition parseTerm (fuel : nat) := parseTerm_with (parsePrimary fuel).
Definition parseRelation (fuel : nat) := parseRelation_with (parsePrimary fuel).
Definition parseLogical (fuel : nat) := parseLogical_with (parsePrimary fuel).

Definition nesting_fuel : nat := S (List.length tokens).

(** [Expression* parse()], called with [token = tokens.begin()]. *)
Definition parse : outcome (Expression * nat) := parseLogical nesting_fuel 0%nat.

End Parser.

(** ** [main], for an arbitrary [input] *)

Definition run (input : string) : outcome Z :=
  obind (tokenize input) (fun tokens =>
  obind (parse tokens) (fun '(tree, _) => calculate tree)).

(** * Notions used in the statements *)

(** A matcher consumes when every match leaves strictly less text. *)
Definition consuming (m : matcher) : Prop :=
  forall s t rest, m s = Some (t, rest) ->
    (String.length rest < String.length s)%nat.

(** ** Integer literals

    An integer literal is a non-empty run of digits; it is representable
    when [stoll] can return its value. *)

Fixpoint all_digits (s : string) : bool :=
  match s with
  | "" => true
  | String c s' => is_digit c && all_digits s'
  end.

Definition literal_value (s : string) : Z := digits_value 0 s.

Definition is_literal (s : string) : bool :=
  starts_with_digit s && all_digits s && (literal_value s <=? LLONG_MAX)%Z.

(** ** Letter case

    [lower] maps a text to lower case; a [plain] text holds no letter; a
    matcher that respects [icase] gives on [lower s] the lowered match. *)

Definition is_lower (c : ascii) : bool :=
  (97 <=? nat_of_ascii c)%nat && (nat_of_ascii c <=? 122)%nat.

Definition is_letter (c : ascii) : bool := is_upper c || is_lower c.

Fixpoint plain (s : string) : bool :=
  match s with
  | "" => true
  | String c s' => negb (is_letter c) && plain s'
  end.

Definition lower_match (r : option (string * string)) : option (string * string) :=
  match r with
  | Some (t, rest) => Some (lower t, lower rest)
  | None => None
  end.

Definition icase (m : matcher) : Prop :=
  forall s, m (lower s) = lower_match (m s).

(** The tree built from the lowered tokens is the tree built from the
    tokens with its operators lowered. *)
Fixpoint lower_ops (e : Expression) : Expression :=
  match e with
  | Logical op l r => Logical (lower op) (lower_ops l) (lower_ops r)
  | Relation op l r => Relation (lower op) (lower_ops l) (lower_ops r)
  | Factor op l r => Factor (lower op) (lower_ops l) (lower_ops r)
  | Term op l r => Term (lower op) (lower_ops l) (lower_ops r)
  | Integer v => Integer v
  | Parentesized => Parentesized
  end.

Definition lower_result (r : outcome (Expression * nat)) : outcome (Expression * nat) :=
  match r with
  | Ok (e, j) => Ok (lower_ops e, j)
  | Err f => Err f
  end.

(** ** Binary operators

    A token that one of the four [check] functions accepts. *)

Definition is_binary_operator (o : string) : bool :=
  Factor_check o || Term_check o || Relation_check o || Logical_check o.

(** ** Truth values

    The glossary of the specification: any non-zero integer is true, zero is
    false.  [glossary_logical] is a logical operator read with these truth
    values; it follows the specification's words and is compared with
    [Logical_calculate] below. *)

Definition glossary_truth (z : Z) : bool := negb (z =? 0)%Z.

Definition glossary_logical (op : string) (r1 r2 : Z) : outcome Z :=
  if strcmpi_eq op "and" then Ok (of_bool (glossary_truth r1 && glossary_truth r2))
  else if strcmpi_eq op "or" then Ok (of_bool (glossary_truth r1 || glossary_truth r2))
  else if strcmpi_eq op "xor" then Ok (of_bool (xorb (glossary_truth r1) (glossary_truth r2)))
  else Err (Thrown "logical NONE").

(** ** Trees of the parser

    The operators of a tree, left to right, and the shape of the trees that
    [Parser] builds: every node carries an operator of its own class, every
    [Integer] a value of [long long], and there is no [Parentesized]. *)

Fixpoint operators (e : Expression) : list string :=
  match e with
  | Logical op l r | Relation op l r | Factor op l r | Term op l r =>
      operators l ++ op :: operators r
  | Integer _ | Parentesized => []
  end.

Fixpoint built (e : Expression) : bool :=
  match e with
  | Logical op l r => Logical_check op && built l && built r
  | Relation op l r => Relation_check op && built l && built r
  | Factor op l r => Factor_check op && built l && built r
  | Term op l r => Term_check op && built l && built r
  | Integer v => ((LLONG_MIN <=? v) && (v <=? LLONG_MAX))%Z
  | Parentesized => false
  end.

(** ** Tokens and their characters

    The texts the token regex can match, and what it means for a text to be
    made of characters of another one, in their order. *)

Definition is_token (t : string) : bool :=
  is_binary_operator t || (starts_with_digit t && all_digits t)
  || (t =? "(") || (t =? ")").

Definition flatten (ts : list string) : string := fold_right append "" ts.

Inductive Subseq : string -> string -> Prop :=
| Subseq_nil (s : string) : Subseq "" s
| Subseq_skip (t : string) (c : ascii) (s : string) :
    Subseq t s -> Subseq t (String c s)
| Subseq_take (t : string) (c : ascii) (s : string) :
    Subseq t s -> Subseq (String c t) (String c s).

(** The tokens written one after the other, a blank behind each. *)
Fixpoint join (ts : list string) : string :=
  match ts with
  | [] => ""
  | t :: ts' => t ++ String " " (join ts')
  end.

(** ** Characters between tokens

    A [boundary] is a character that is no digit and stands in none of the
    keywords and operators, in any casing: a parenthesis, a blank, a letter
    of no keyword.  A [separator] is a boundary that is no parenthesis
    either, so that no token holds it. *)

Fixpoint occurs (b : ascii) (lit : string) : bool :=
  match lit with
  | "" => false
  | String l lit' => Ascii.eqb (to_lower l) (to_lower b) || occurs b lit'
  end.

Definition in_class (b : ascii) (cls : list ascii) : bool :=
  existsb (fun k => Ascii.eqb (to_lower k) (to_lower b)) cls.

Definition boundary (b : ascii) : bool :=
  negb (is_digit b) && negb (existsb (occurs b) (keywords ++ rel2))
  && negb (in_class b rel1) && negb (in_class b arith).

Definition separator (b : ascii) : bool :=
  boundary b && negb (in_class b parens).

(** * Properties of the tokenizer *)

Ltac each_char c :=
  destruct c as [[] [] [] [] [] [] [] []].

Lemma to_lower_idem (c : ascii) : to_lower (to_lower c) = to_lower c.
Proof. each_char c; reflexivity. Qed.

Lemma is_digit_lower (c : ascii) : is_digit (to_lower c) = is_digit c.
Proof. each_char c; reflexivity. Qed.

Lemma is_space_lower (c : ascii) : is_space (to_lower c) = is_space c.
Proof. each_char c; reflexivity. Qed.

Lemma digit_lower (c : ascii) : is_digit c = true -> to_lower c = c.
Proof. each_char c; intros H; try reflexivity; discriminate H. Qed.

Lemma lower_idem (s : string) : lower (lower s) = lower s.
Proof.
  induction s as [|c s IH]; simpl; [reflexivity|].
  now rewrite to_lower_idem, IH.
Qed.

Lemma lower_length (s : string) : String.length (lower s) = String.length s.
Proof. induction s as [|c s IH]; simpl; congruence. Qed.

Lemma match_literal_length (lit s t rest : string) :
  match_literal lit s = Some (t, rest) ->
  (String.length rest + String.length lit = String.length s)%nat.
Proof.
  revert s t rest.
  induction lit as [|l lit IH]; intros s t rest; simpl.
  - intros [= _ <-]. lia.
  - destruct s as [|c s]; [discriminate|].
    destruct (Ascii.eqb _ _); [|discriminate].
    destruct (match_literal lit s) as [[m r]|] eqn:E; [|discriminate].
    intros [= _ <-]. apply IH in E. simpl. lia.
Qed.

Lemma consuming_first (alts : list matcher) :
  Forall consuming alts -> consuming (match_first alts).
Proof.
  induction 1 as [|m alts Hm _ IH]; intros s t rest; simpl; [discriminate|].
  destruct (m s) as [[t' r']|] eqn:E.
  - intros [= <- <-]. exact (Hm _ _ _ E).
  - apply IH.
Qed.

Lemma consuming_alt (lits : list string) :
  Forall (fun l => l <> "") lits -> consuming (match_alt lits).
Proof.
  intros H. apply consuming_first.
  induction H as [|l lits Hl _ IH]; constructor; [|exact IH].
  intros s t rest E. apply match_literal_length in E.
  destruct l; [congruence|]. simpl in E. lia.
Qed.

Lemma consuming_class (cls : list ascii) : consuming (match_class cls).
Proof.
  intros [|c s] t rest; simpl; [discriminate|].
  destruct (existsb _ cls); [|discriminate].
  intros [= _ <-]. lia.
Qed.

Lemma span_digits_length (s : string) :
  (String.length (fst (span_digits s)) + String.length (snd (span_digits s))
   = String.length s)%nat.
Proof.
  induction s as [|c s IH]; simpl; [reflexivity|].
  destruct (is_digit c); [|reflexivity].
  destruct (span_digits s) as [ds rest]. simpl in *. lia.
Qed.

Lemma consuming_digits : consuming match_digits.
Proof.
  intros s t rest. unfold match_digits.
  pose proof (span_digits_length s) as L.
  destruct (span_digits s) as [ds r]. simpl in L.
  destruct ds as [|d ds]; [discriminate|].
  intros [= <- <-]. simpl in L. lia.
Qed.

Lemma consuming_token_regex : consuming token_regex.
Proof.
  apply consuming_first.
  repeat constructor;
    first [ apply consuming_class | apply consuming_digits
          | apply consuming_alt; repeat constructor; discriminate ].
Qed.

Lemma regex_search_length (e : matcher) (s t rest : string) :
  consuming e -> regex_search e s = Some (t, rest) ->
  (String.length rest < String.length s)%nat.
Proof.
  intros He. induction s as [|c s IH]; simpl.
  - destruct (e "") as [[t' r']|] eqn:E; [|discriminate].
    intros [= <- <-]. exact (He _ _ _ E).
  - destruct (e (String c s)) as [[t' r']|] eqn:E.
    + intros [= <- <-]. exact (He _ _ _ E).
    + intros H. apply IH in H. simpl. lia.
Qed.

(** The loop of [tokenize] never needs more rounds than [tokens_of] allows:
    any larger bound gives the same tokens. *)
Lemma scan_enough (fuel : nat) (s : string) :
  (String.length s <= fuel)%nat -> scan fuel s = tokens_of s.
Proof.
  unfold tokens_of.
  remember (String.length s) as n eqn:Hn.
  assert (Hle : (String.length s <= n)%nat) by lia. clear Hn.
  revert s fuel Hle.
  induction n as [|n IH]; intros s fuel Hle Hf.
  - destruct s; [|simpl in Hle; lia].
    destruct fuel; reflexivity.
  - destruct fuel as [|fuel]; [lia|]. simpl.
    destruct (regex_search token_regex s) as [[t rest]|] eqn:E; [|reflexivity].
    apply regex_search_length in E; [|exact consuming_token_regex].
    f_equal. apply IH; lia.
Qed.

Lemma tokens_of_unfold (s : string) :
  tokens_of s =
  match regex_search token_regex s with
  | Some (t, rest) => t :: tokens_of rest
  | None => []
  end.
Proof.
  unfold tokens_of at 1.
  destruct s as [|c s].
  - reflexivity.
  - cbn [String.length scan].
    destruct (regex_search token_regex (String c s)) as [[t rest]|] eqn:E;
      [|reflexivity].
    apply regex_search_length in E; [|exact consuming_token_regex].
    f_equal. apply scan_enough. simpl in E. lia.
Qed.

(** A position where no alternative matches is skipped. *)
Lemma tokens_of_skip (c : ascii) (s : string) :
  token_regex (String c s) = None -> tokens_of (String c s) = tokens_of s.
Proof.
  intros H. rewrite (tokens_of_unfold (String c s)), (tokens_of_unfold s).
  cbn [regex_search]. rewrite H. reflexivity.
Qed.

Lemma tokens_of_match (s t rest : string) :
  token_regex s = Some (t, rest) -> tokens_of s = t :: tokens_of rest.
Proof.
  intros H. rewrite tokens_of_unfold.
  destruct s; cbn [regex_search]; rewrite H; reflexivity.
Qed.

Lemma span_digits_app (ds rest : string) :
  all_digits ds = true -> starts_with_digit rest = false ->
  span_digits (ds ++ rest) = (ds, rest).
Proof.
  intros Hd Hr. induction ds as [|c ds IH]; cbn [append span_digits].
  - destruct rest as [|r rest]; [reflexivity|].
    cbn [span_digits]. cbn [starts_with_digit] in Hr. rewrite Hr. reflexivity.
  - cbn [all_digits] in Hd. apply andb_prop in Hd as [Hc Hd].
    rewrite Hc, (IH Hd). reflexivity.
Qed.

Lemma token_regex_digit (c : ascii) (s : string) :
  is_digit c = true ->
  token_regex (String c s) = match_digits (String c s).
Proof.
  intros H. each_char c; try discriminate H;
    unfold token_regex, match_digits; simpl;
    destruct (span_digits s); reflexivity.
Qed.

Lemma token_regex_literal (ds rest : string) :
  starts_with_digit ds = true -> all_digits ds = true ->
  starts_with_digit rest = false ->
  token_regex (ds ++ rest) = Some (ds, rest).
Proof.
  intros H0 Hd Hr. destruct ds as [|c ds]; [discriminate|].
  simpl in H0. change (String c ds ++ rest) with (String c (ds ++ rest)).
  rewrite (token_regex_digit _ _ H0).
  change (String c (ds ++ rest)) with (String c ds ++ rest).
  unfold match_digits. rewrite (span_digits_app _ _ Hd Hr). reflexivity.
Qed.

Lemma tokens_of_literal (ds rest : string) :
  starts_with_digit ds = true -> all_digits ds = true ->
  starts_with_digit rest = false ->
  tokens_of (ds ++ rest) = ds :: tokens_of rest.
Proof.
  intros H0 Hd Hr. apply tokens_of_match, token_regex_literal; assumption.
Qed.

Lemma digits_value_nonneg (s : string) (acc : Z) :
  (0 <= acc)%Z -> (0 <= digits_value acc s)%Z.
Proof.
  revert acc. induction s as [|c s IH]; intros acc Ha; simpl; [exact Ha|].
  destruct (is_digit c) eqn:E; [|exact Ha].
  apply IH. unfold digit_value.
  unfold is_digit in E. apply andb_prop in E as [E _].
  apply Nat.leb_le in E. lia.
Qed.

Lemma stoll_digit (c : ascii) (s : string) :
  is_digit c = true ->
  stoll (String c s) =
  if ((LLONG_MIN <=? digits_value 0 (String c s))
      && (digits_value 0 (String c s) <=? LLONG_MAX))%Z
  then StollValue (digits_value 0 (String c s)) else StollOutOfRange.
Proof.
  intros H. each_char c; try discriminate H; reflexivity.
Qed.

Lemma stoll_literal (s : string) :
  is_literal s = true -> stoll s = StollValue (literal_value s).
Proof.
  unfold is_literal, literal_value. intros H.
  apply andb_prop in H as [H Hmax]. apply andb_prop in H as [H0 _].
  destruct s as [|c s]; [discriminate|]. simpl in H0.
  rewrite (stoll_digit _ _ H0), Hmax.
  pose proof (digits_value_nonneg (String c s) 0 (Z.le_refl 0)) as Hpos.
  assert (Hmin : (LLONG_MIN <=? digits_value 0 (String c s))%Z = true).
  { apply Z.leb_le. unfold LLONG_MIN. lia. }
  rewrite Hmin. reflexivity.
Qed.

Lemma literal_in_ll (s : string) : is_literal s = true -> in_ll (literal_value s).
Proof.
  unfold is_literal, in_ll. intros H. apply andb_prop in H as [_ Hmax].
  apply Z.leb_le in Hmax.
  pose proof (digits_value_nonneg s 0 (Z.le_refl 0)). unfold literal_value in *.
  unfold LLONG_MIN. lia.
Qed.

(** * Properties of the parser *)

Section ParserSteps.

Variable tokens : list string.

(** One round of the loop and one call of [parsePrimary], with the
    iterator written out. *)
Lemma fold_operators_unfold (fuel : nat) (check : string -> bool)
    (node : string -> Expression -> Expression -> Expression)
    (operand : parser Expression) (left : Expression) (token : nat) :
  fold_operators tokens (S fuel) check node operand left token =
  let op := match nth_error tokens token with Some t => t | None => "" end in
  if check op then
    if (token <? List.length tokens)%nat then
      match operand (S token) with
      | Ok (r, token') =>
          fold_operators tokens fuel check node operand (node op left r) token'
      | Err f => Err f
      end
    else Err (Undefined IncrEnd)
  else Ok (left, token).
Proof.
  cbn [fold_operators]. unfold bind at 1, current_op.
  destruct (nth_error tokens token); cbv zeta;
    (destruct (check _); [|reflexivity]);
    unfold bind, incr; destruct (token <? List.length tokens)%nat; reflexivity.
Qed.

Lemma parsePrimary_unfold (fuel token : nat) :
  parsePrimary tokens (S fuel) token =
  match nth_error tokens token with
  | None => Err (Undefined DerefEnd)
  | Some t =>
      match stoll t with
      | StollValue v => Ok (Integer v, S token)
      | StollOutOfRange => Err OutOfRange
      | StollInvalid =>
          if t =? "(" then
            match parseLogical_with tokens (parsePrimary tokens fuel) (S token) with
            | Ok (e, token') =>
                if (token' <? List.length tokens)%nat then Ok (e, S token')
                else Err (Undefined IncrEnd)
            | Err f => Err f
            end
          else Err SyntaxError
      end
  end.
Proof.
  cbn [parsePrimary]. unfold bind at 1, deref.
  destruct (nth_error tokens token) as [t|] eqn:Ht; [|reflexivity].
  assert (Hb : (token <? List.length tokens)%nat = true).
  { apply Nat.ltb_lt, nth_error_Some. congruence. }
  destruct (stoll t); [| |reflexivity].
  - unfold bind, incr, ret. rewrite Hb. reflexivity.
  - unfold bind at 1, deref. rewrite Ht.
    destruct (t =? "("); [|reflexivity].
    unfold bind at 1, incr at 1. rewrite Hb. unfold bind at 1.
    destruct (parseLogical_with _ _ _) as [[e j]|f]; [|reflexivity].
    unfold bind, incr, ret.
    destruct (j <? List.length tokens)%nat; reflexivity.
Qed.

Lemma parsePrimary_literal (fuel token : nat) (t : string) (v : Z) :
  nth_error tokens token = Some t -> stoll t = StollValue v ->
  parsePrimary tokens (S fuel) token = Ok (Integer v, S token).
Proof.
  intros Ht Hv. cbn [parsePrimary]. unfold bind at 1, deref. rewrite Ht, Hv.
  unfold bind, incr, ret.
  assert (H : (token <? List.length tokens)%nat = true).
  { apply Nat.ltb_lt, nth_error_Some. congruence. }
  rewrite H. reflexivity.
Qed.

Lemma parsePrimary_end (fuel token : nat) :
  (List.length tokens <= token)%nat ->
  parsePrimary tokens (S fuel) token = Err (Undefined DerefEnd).
Proof.
  intros H. apply nth_error_None in H.
  cbn [parsePrimary]. unfold bind at 1, deref. rewrite H. reflexivity.
Qed.

Lemma parsePrimary_other (fuel token : nat) (t : string) :
  nth_error tokens token = Some t -> stoll t = StollInvalid ->
  (t =? "(") = false ->
  parsePrimary tokens (S fuel) token = Err SyntaxError.
Proof.
  intros Ht Hv Hp. cbn [parsePrimary]. unfold bind at 1, deref.
  rewrite Ht, Hv. unfold bind, deref. rewrite Ht, Hp. reflexivity.
Qed.

Section Fold.

Variable check : string -> bool.
Variable node : string -> Expression -> Expression -> Expression.
Variable operand : parser Expression.

Lemma fold_operators_step (fuel token : nat) (op : string) (left : Expression) :
  nth_error tokens token = Some op -> check op = true ->
  fold_operators tokens (S fuel) check node operand left token =
  match operand (S token) with
  | Ok (r, token') =>
      fold_operators tokens fuel check node operand (node op left r) token'
  | Err f => Err f
  end.
Proof.
  intros Ht Hc. cbn [fold_operators]. unfold bind at 1, current_op.
  rewrite Ht, Hc. unfold bind, incr.
  assert (H : (token <? List.length tokens)%nat = true).
  { apply Nat.ltb_lt, nth_error_Some. congruence. }
  rewrite H. reflexivity.
Qed.

Lemma fold_operators_stop (fuel token : nat) (op : string) (left : Expression) :
  nth_error tokens token = Some op -> check op = false ->
  fold_operators tokens (S fuel) check node operand left token = Ok (left, token).
Proof.
  intros Ht Hc. cbn [fold_operators]. unfold bind, current_op.
  rewrite Ht, Hc. reflexivity.
Qed.

Lemma fold_operators_end (fuel token : nat) (left : Expression) :
  nth_error tokens token = None -> check "" = false ->
  fold_operators tokens (S fuel) check node operand left token = Ok (left, token).
Proof.
  intros Ht Hc. cbn [fold_operators]. unfold bind, current_op.
  rewrite Ht, Hc. reflexivity.
Qed.

End Fold.

End ParserSteps.

(** ** The recursion budget is never used up

    Every call of [parsePrimary] that returns has stepped over at least one
    token, so [parse] nests at most [length tokens] deep and every loop runs
    at most [length tokens] times. *)

Section Totality.

Variable tokens : list string.

(** The outcome is not an exhausted budget, and a returned iterator lies
    between [lo] and [tokens.end()]. *)
Definition within (lo : nat) (r : outcome (Expression * nat)) : Prop :=
  match r with
  | Ok (_, j) => (lo <= j <= List.length tokens)%nat
  | Err f => f <> OutOfFuel
  end.

(** From every position at or after [i], the parser [p] stays within its
    budget and moves forward when it returns. *)
Definition advances (p : parser Expression) (i : nat) : Prop :=
  forall k, (i <= k <= List.length tokens)%nat -> within (S k) (p k).

Lemma within_weaken (lo lo' : nat) (r : outcome (Expression * nat)) :
  (lo' <= lo)%nat -> within lo r -> within lo' r.
Proof. destruct r as [[e j]|f]; simpl; [lia|auto]. Qed.

Section Level.

Variable check : string -> bool.
Variable node : string -> Expression -> Expression -> Expression.
Variable operand : parser Expression.
Variable i : nat.
Hypothesis operand_advances : advances operand i.

Lemma fold_operators_total (fuel : nat) :
  forall (left : Expression) (k : nat),
    (i <= k <= List.length tokens)%nat ->
    (List.length tokens < k + fuel)%nat ->
    within k (fold_operators tokens fuel check node operand left k).
Proof.
  induction fuel as [|fuel IH]; intros left k Hk Hfuel; [lia|].
  cbn [fold_operators]. unfold bind at 1, current_op.
  assert (Hstop : within k (ret left k)) by (simpl; lia).
  destruct (nth_error tokens k) as [op|] eqn:Ht;
    (destruct (check _); [|exact Hstop]); unfold bind, incr.
  - assert (Hlt : (k < List.length tokens)%nat).
    { apply nth_error_Some. congruence. }
    apply Nat.ltb_lt in Hlt as Hb. rewrite Hb.
    pose proof (operand_advances (S k)) as Hadv.
    destruct (operand (S k)) as [[r j]|f] eqn:Ho.
    + simpl in Hadv. apply within_weaken with (lo := j); [lia|].
      apply IH; lia.
    + apply Hadv. lia.
  - apply nth_error_None in Ht.
    assert (Hb : (k <? List.length tokens)%nat = false)
      by (apply Nat.ltb_ge; exact Ht).
    rewrite Hb. discriminate.
Qed.

Lemma level_total :
  advances (bind operand (fun left =>
              fold_operators tokens (loop_fuel tokens) check node operand left)) i.
Proof.
  intros k Hk. unfold bind.
  pose proof (operand_advances k Hk) as Hadv.
  destruct (operand k) as [[left j]|f] eqn:Ho; [|exact Hadv].
  simpl in Hadv. apply within_weaken with (lo := j); [lia|].
  apply fold_operators_total; unfold loop_fuel; lia.
Qed.

End Level.

Lemma parseLogical_with_total (primary : parser Expression) (i : nat) :
  advances primary i -> advances (parseLogical_with tokens primary) i.
Proof.
  intros H. unfold parseLogical_with, parseRelation_with, parseTerm_with,
    parseFactor_with.
  repeat apply level_total. exact H.
Qed.

Lemma parsePrimary_total (fuel : nat) :
  forall i, (List.length tokens < i + fuel)%nat ->
            advances (parsePrimary tokens fuel) i.
Proof.
  induction fuel as [|fuel IH]; intros i Hfuel k Hk; [lia|].
  cbn [parsePrimary]. unfold bind at 1, deref.
  destruct (nth_error tokens k) as [t|] eqn:Ht; [|discriminate].
  assert (Hlt : (k < List.length tokens)%nat).
  { apply nth_error_Some. congruence. }
  apply Nat.ltb_lt in Hlt as Hb.
  destruct (stoll t).
  - unfold bind, incr, ret. rewrite Hb. simpl. lia.
  - unfold bind at 1, deref. rewrite Ht.
    destruct (t =? "("); [|discriminate].
    unfold bind at 1, incr at 1. rewrite Hb.
    assert (Hin : advances (parseLogical_with tokens (parsePrimary tokens fuel)) (S k)).
    { apply parseLogical_with_total, IH. lia. }
    specialize (Hin (S k)). unfold bind at 1.
    destruct (parseLogical_with tokens (parsePrimary tokens fuel) (S k))
      as [[e j]|f] eqn:Hp.
    + simpl in Hin. unfold bind, incr, ret.
      destruct (j <? List.length tokens)%nat eqn:Hj; [|discriminate].
      apply Nat.ltb_lt in Hj. simpl. lia.
    + apply Hin. lia.
  - discriminate.
Qed.

Lemma parse_total : parse tokens <> Err OutOfFuel.
Proof.
  assert (H : advances (parseLogical_with tokens
                          (parsePrimary tokens (nesting_fuel tokens))) 0).
  { apply parseLogical_with_total, parsePrimary_total.
    unfold nesting_fuel. lia. }
  specialize (H 0%nat). unfold parse, parseLogical.
  destruct (parseLogical_with _ _ _) as [[e j]|f]; [discriminate|].
  intros [= ->]. apply H; [lia|reflexivity].
Qed.

End Totality.

(** ** A larger budget changes nothing

    The budget shows in an outcome only as [OutOfFuel]: a parser that ends
    otherwise ends the same way with any larger budget. *)

Section Budget.

Variable tokens : list string.

Definition refines (p' p : parser Expression) : Prop :=
  forall i, p i <> Err OutOfFuel -> p' i = p i.

Section Level.

Variable check : string -> bool.
Variable node : string -> Expression -> Expression -> Expression.
Variables operand' operand : parser Expression.
Hypothesis operand_refines : refines operand' operand.

Lemma fold_operators_refines (fuel : nat) :
  forall fuel' left, (fuel <= fuel')%nat ->
    refines (fold_operators tokens fuel' check node operand' left)
            (fold_operators tokens fuel check node operand left).
Proof.
  induction fuel as [|fuel IH]; intros fuel' left Hle i H.
  - contradiction H. reflexivity.
  - destruct fuel' as [|fuel']; [lia|].
    rewrite fold_operators_unfold in H. rewrite !fold_operators_unfold.
    cbv zeta in *.
    destruct (check _); [|reflexivity].
    destruct (i <? List.length tokens)%nat; [|reflexivity].
    assert (Ho : operand (S i) <> Err OutOfFuel).
    { intros E. rewrite E in H. contradiction H. reflexivity. }
    rewrite (operand_refines _ Ho).
    destruct (operand (S i)) as [[r j]|f]; [|reflexivity].
    apply IH; [lia|exact H].
Qed.

Lemma level_refines :
  refines
    (bind operand' (fun left =>
       fold_operators tokens (loop_fuel tokens) check node operand' left))
    (bind operand (fun left =>
       fold_operators tokens (loop_fuel tokens) check node operand left)).
Proof.
  intros i. unfold bind. intros H.
  assert (Ho : operand i <> Err OutOfFuel).
  { intros E. rewrite E in H. contradiction H. reflexivity. }
  rewrite (operand_refines _ Ho).
  destruct (operand i) as [[left j]|f]; [|reflexivity].
  apply fold_operators_refines; [lia|exact H].
Qed.

End Level.

Lemma parseLogical_with_refines (primary' primary : parser Expression) :
  refines primary' primary ->
  refines (parseLogical_with tokens primary') (parseLogical_with tokens primary).
Proof.
  intros H. unfold parseLogical_with, parseRelation_with, parseTerm_with,
    parseFactor_with.
  repeat apply level_refines. exact H.
Qed.

Lemma parsePrimary_refines (fuel : nat) :
  forall fuel', (fuel <= fuel')%nat ->
    refines (parsePrimary tokens fuel') (parsePrimary tokens fuel).
Proof.
  induction fuel as [|fuel IH]; intros fuel' Hle i H.
  - contradiction H. reflexivity.
  - destruct fuel' as [|fuel']; [lia|].
    rewrite parsePrimary_unfold in H. rewrite !parsePrimary_unfold.
    destruct (nth_error tokens i) as [t|]; [|reflexivity].
    destruct (stoll t); try reflexivity.
    destruct (t =? "("); [|reflexivity].
    assert (Hin : parseLogical_with tokens (parsePrimary tokens fuel) (S i)
                  <> Err OutOfFuel).
    { intros E. rewrite E in H. contradiction H. reflexivity. }
    rewrite (parseLogical_with_refines _ _ (IH fuel' ltac:(lia)) _ Hin).
    reflexivity.
Qed.

(** [parse] with any deeper nesting allowed is [parse]. *)
Lemma parse_budget (fuel : nat) :
  (nesting_fuel tokens <= fuel)%nat -> parseLogical tokens fuel 0%nat = parse tokens.
Proof.
  intros Hle. unfold parse, parseLogical.
  apply parseLogical_with_refines; [apply parsePrimary_refines; exact Hle|].
  exact (parse_total tokens).
Qed.

End Budget.

(** * Letter case

    Changing the case of letters of the input changes the case of letters
    inside the tokens and nothing else: every regular expression is compiled
    with [icase], [stoll] and the comparisons with operator spellings look at
    characters that are no letters, and [Logical::calculate] compares with
    [_strcmpi].  The lemmas relate each function on [lower s] to the same
    function on [s]. *)

Lemma to_lower_upper (c : ascii) : is_upper c = true -> is_letter (to_lower c) = true.
Proof. each_char c; intros H; try reflexivity; discriminate H. Qed.

Lemma to_lower_eqb_plain (c d : ascii) :
  is_letter d = false -> Ascii.eqb (to_lower c) d = Ascii.eqb c d.
Proof.
  intros Hd. destruct (is_upper c) eqn:U.
  - destruct (Ascii.eqb_spec (to_lower c) d) as [E|_].
    + rewrite <- E, (to_lower_upper _ U) in Hd. discriminate.
    + destruct (Ascii.eqb_spec c d) as [E|_]; [|reflexivity].
      subst d. unfold is_letter in Hd. rewrite U in Hd. discriminate.
  - unfold to_lower. rewrite U. reflexivity.
Qed.

Lemma lower_eqb_plain (k t : string) :
  plain k = true -> (lower t =? k) = (t =? k).
Proof.
  revert t. induction k as [|d k IH]; intros [|c t] Hk; try reflexivity.
  cbn [plain] in Hk. apply andb_prop in Hk as [Hd Hk].
  apply negb_true_iff in Hd.
  cbn [lower String.eqb]. rewrite (to_lower_eqb_plain _ _ Hd), (IH _ Hk).
  reflexivity.
Qed.

Lemma icase_literal (lit : string) : icase (match_literal lit).
Proof.
  induction lit as [|l lit IH]; intros [|c s]; try reflexivity.
  cbn [lower match_literal]. rewrite to_lower_idem.
  destruct (Ascii.eqb _ _); [|reflexivity].
  rewrite IH. destruct (match_literal lit s) as [[m r]|]; reflexivity.
Qed.

Lemma icase_first (alts : list matcher) :
  Forall icase alts -> icase (match_first alts).
Proof.
  induction 1 as [|m alts Hm _ IH]; intros s; [reflexivity|].
  cbn [match_first]. rewrite Hm.
  destruct (m s) as [[t r]|]; [reflexivity|apply IH].
Qed.

Lemma icase_alt (lits : list string) : icase (match_alt lits).
Proof.
  apply icase_first. induction lits; constructor; auto using icase_literal.
Qed.

Lemma icase_class (cls : list ascii) : icase (match_class cls).
Proof.
  intros [|c s]; [reflexivity|]. cbn [lower match_class].
  rewrite to_lower_idem. destruct (existsb _ cls); reflexivity.
Qed.

Lemma span_digits_lower (s : string) :
  span_digits (lower s) =
  (lower (fst (span_digits s)), lower (snd (span_digits s))).
Proof.
  induction s as [|c s IH]; [reflexivity|].
  cbn [lower span_digits]. rewrite is_digit_lower.
  destruct (is_digit c); [|reflexivity].
  rewrite IH. destruct (span_digits s); reflexivity.
Qed.

Lemma icase_digits : icase match_digits.
Proof.
  intros s. unfold match_digits. rewrite span_digits_lower.
  destruct (span_digits s) as [[|d ds] rest]; reflexivity.
Qed.

Lemma icase_token_regex : icase token_regex.
Proof.
  apply icase_first.
  repeat constructor;
    first [apply icase_alt | apply icase_class | apply icase_digits].
Qed.

Lemma regex_search_lower (e : matcher) (s : string) :
  icase e -> regex_search e (lower s) = lower_match (regex_search e s).
Proof.
  intros He. induction s as [|c s IH].
  - cbn [lower regex_search]. change "" with (lower "") at 1. rewrite He.
    destruct (e "") as [[t r]|]; reflexivity.
  - cbn [lower regex_search]. change (String (to_lower c) (lower s))
      with (lower (String c s)). rewrite He.
    destruct (e (String c s)) as [[t r]|]; [reflexivity|exact IH].
Qed.

Lemma scan_lower (fuel : nat) (s : string) :
  scan fuel (lower s) = map lower (scan fuel s).
Proof.
  revert s. induction fuel as [|fuel IH]; intros s; [reflexivity|].
  cbn [scan]. rewrite (regex_search_lower _ _ icase_token_regex).
  destruct (regex_search token_regex s) as [[t r]|]; [|reflexivity].
  cbn [lower_match map]. rewrite IH. reflexivity.
Qed.

Lemma tokens_of_lower (s : string) :
  tokens_of (lower s) = map lower (tokens_of s).
Proof. unfold tokens_of. rewrite lower_length. apply scan_lower. Qed.

Lemma full_match_lower (m : matcher) (s : string) :
  icase m -> full_match m (lower s) = full_match m s.
Proof.
  intros Hm. unfold full_match. rewrite Hm.
  destruct (m s) as [[t [|c r]]|]; reflexivity.
Qed.

Lemma regex_match_alts_lower (alts : list matcher) (s : string) :
  Forall icase alts ->
  regex_match_alts alts (lower s) = regex_match_alts alts s.
Proof.
  unfold regex_match_alts.
  induction 1 as [|m alts Hm _ IH]; [reflexivity|].
  cbn [existsb]. rewrite (full_match_lower _ _ Hm), IH. reflexivity.
Qed.

Lemma Logical_check_lower (op : string) :
  Logical_check (lower op) = Logical_check op.
Proof.
  apply regex_match_alts_lower. repeat constructor; apply icase_literal.
Qed.

Lemma Relation_check_lower (op : string) :
  Relation_check (lower op) = Relation_check op.
Proof.
  apply regex_match_alts_lower.
  repeat constructor; first [apply icase_literal | apply icase_class].
Qed.

Lemma Factor_check_lower (op : string) :
  Factor_check (lower op) = Factor_check op.
Proof. unfold Factor_check. now rewrite !lower_eqb_plain by reflexivity. Qed.

Lemma Term_check_lower (op : string) :
  Term_check (lower op) = Term_check op.
Proof. unfold Term_check. now rewrite !lower_eqb_plain by reflexivity. Qed.

Lemma skip_space_lower (s : string) :
  skip_space (lower s) = lower (skip_space s).
Proof.
  induction s as [|c s IH]; [reflexivity|].
  cbn [lower skip_space]. rewrite is_space_lower.
  destruct (is_space c); [exact IH|reflexivity].
Qed.

Lemma starts_with_digit_lower (s : string) :
  starts_with_digit (lower s) = starts_with_digit s.
Proof. destruct s as [|c s]; [reflexivity|]. apply is_digit_lower. Qed.

Lemma digits_value_lower (s : string) (acc : Z) :
  digits_value acc (lower s) = digits_value acc s.
Proof.
  revert acc. induction s as [|c s IH]; intros acc; [reflexivity|].
  cbn [lower digits_value]. rewrite is_digit_lower.
  destruct (is_digit c) eqn:E; [|reflexivity].
  rewrite (digit_lower _ E). apply IH.
Qed.

Lemma split_sign_lower (s : string) :
  split_sign (lower s) = (fst (split_sign s), lower (snd (split_sign s))).
Proof.
  destruct s as [|c r]; [reflexivity|]. each_char c; reflexivity.
Qed.

Lemma stoll_lower (s : string) : stoll (lower s) = stoll s.
Proof.
  unfold stoll. rewrite skip_space_lower, split_sign_lower.
  destruct (split_sign (skip_space s)) as [neg s2]. cbn [fst snd].
  rewrite starts_with_digit_lower, digits_value_lower. reflexivity.
Qed.

Section ParserCase.

Variable tokens : list string.

Let ltokens : list string := map lower tokens.

Definition lowered (p' p : parser Expression) : Prop :=
  forall i, p' i = lower_result (p i).

Lemma nth_error_lower (i : nat) :
  nth_error ltokens i = option_map lower (nth_error tokens i).
Proof. apply nth_error_map. Qed.

Lemma length_lower : List.length ltokens = List.length tokens.
Proof. apply length_map. Qed.

Section Level.

Variable check : string -> bool.
Variable node : string -> Expression -> Expression -> Expression.
Variables operand' operand : parser Expression.
Hypothesis check_lower : forall op, check (lower op) = check op.
Hypothesis node_lower : forall op l r,
  lower_ops (node op l r) = node (lower op) (lower_ops l) (lower_ops r).
Hypothesis operand_lowered : lowered operand' operand.

Lemma fold_operators_lower (fuel : nat) :
  forall left i,
    fold_operators ltokens fuel check node operand' (lower_ops left) i =
    lower_result (fold_operators tokens fuel check node operand left i).
Proof.
  induction fuel as [|fuel IH]; intros left i; [reflexivity|].
  rewrite !fold_operators_unfold, nth_error_lower, length_lower. cbv zeta.
  assert (Hop : match option_map lower (nth_error tokens i) with
                | Some t => t | None => "" end
                = lower match nth_error tokens i with
                        | Some t => t | None => "" end)
    by (destruct (nth_error tokens i); reflexivity).
  rewrite Hop, check_lower. destruct (check _); [|reflexivity].
  destruct (i <? List.length tokens)%nat; [|reflexivity].
  rewrite operand_lowered.
  destruct (operand (S i)) as [[r j]|f]; [|reflexivity].
  cbn [lower_result]. rewrite <- node_lower. apply IH.
Qed.

Lemma level_lower :
  lowered
    (bind operand' (fun left =>
       fold_operators ltokens (loop_fuel ltokens) check node operand' left))
    (bind operand (fun left =>
       fold_operators tokens (loop_fuel tokens) check node operand left)).
Proof.
  intros i. unfold bind, loop_fuel. rewrite operand_lowered, length_lower.
  destruct (operand i) as [[left j]|f]; [|reflexivity].
  cbn [lower_result]. apply fold_operators_lower.
Qed.

End Level.

Lemma parseLogical_with_lower (primary' primary : parser Expression) :
  lowered primary' primary ->
  lowered (parseLogical_with ltokens primary') (parseLogical_with tokens primary).
Proof.
  intros H. unfold parseLogical_with, parseRelation_with, parseTerm_with,
    parseFactor_with.
  apply level_lower;
    [exact Logical_check_lower | reflexivity |].
  apply level_lower;
    [exact Relation_check_lower | reflexivity |].
  apply level_lower;
    [exact Term_check_lower | reflexivity |].
  apply level_lower;
    [exact Factor_check_lower | reflexivity |].
  exact H.
Qed.

Lemma parsePrimary_lower (fuel : nat) :
  lowered (parsePrimary ltokens fuel) (parsePrimary tokens fuel).
Proof.
  induction fuel as [|fuel IH]; intros i; [reflexivity|].
  rewrite !parsePrimary_unfold, nth_error_lower, length_lower.
  destruct (nth_error tokens i) as [t|]; cbn [option_map]; [|reflexivity].
  rewrite stoll_lower. destruct (stoll t); try reflexivity.
  rewrite (lower_eqb_plain "(" t eq_refl).
  destruct (t =? "("); [|reflexivity].
  rewrite (parseLogical_with_lower _ _ IH).
  destruct (parseLogical_with tokens (parsePrimary tokens fuel) (S i))
    as [[e j]|f]; [|reflexivity].
  cbn [lower_result]. destruct (j <? List.length tokens)%nat; reflexivity.
Qed.

Lemma parse_lower : parse ltokens = lower_result (parse tokens).
Proof.
  unfold parse, parseLogical, nesting_fuel. rewrite length_lower.
  apply parseLogical_with_lower, parsePrimary_lower.
Qed.

End ParserCase.

Lemma Logical_calculate_lower (op : string) (r1 r2 : Z) :
  Logical_calculate (lower op) r1 r2 = Logical_calculate op r1 r2.
Proof. unfold Logical_calculate, strcmpi_eq. rewrite lower_idem. reflexivity. Qed.

Lemma Relation_calculate_lower (op : string) (r1 r2 : Z) :
  Relation_calculate (lower op) r1 r2 = Relation_calculate op r1 r2.
Proof.
  unfold Relation_calculate. now rewrite !lower_eqb_plain by reflexivity.
Qed.

Lemma Factor_calculate_lower (op : string) (r1 r2 : Z) :
  Factor_calculate (lower op) r1 r2 = Factor_calculate op r1 r2.
Proof.
  unfold Factor_calculate. now rewrite !lower_eqb_plain by reflexivity.
Qed.

Lemma Term_calculate_lower (op : string) (r1 r2 : Z) :
  Term_calculate (lower op) r1 r2 = Term_calculate op r1 r2.
Proof.
  unfold Term_calculate. now rewrite !lower_eqb_plain by reflexivity.
Qed.

Lemma calculate_lower (e : Expression) : calculate (lower_ops e) = calculate e.
Proof.
  induction e as [op l IHl r IHr|op l IHl r IHr|op l IHl r IHr|op l IHl r IHr|v|];
    cbn [lower_ops calculate]; try reflexivity;
    rewrite IHl, IHr;
    destruct (calculate l) as [r1|]; cbn [obind]; try reflexivity;
    destruct (calculate r) as [r2|]; cbn [obind]; try reflexivity.
  - apply Logical_calculate_lower.
  - apply Relation_calculate_lower.
  - apply Factor_calculate_lower.
  - apply Term_calculate_lower.
Qed.

Lemma run_lower (input : string) : run (lower input) = run input.
Proof.
  unfold run, tokenize. rewrite tokens_of_lower, length_map.
  destruct (List.length (tokens_of input) =? 0)%nat; [reflexivity|].
  cbn [obind]. rewrite parse_lower.
  destruct (parse (tokens_of input)) as [[e j]|f]; [|reflexivity].
  cbn [lower_result obind]. apply calculate_lower.
Qed.

(** * A trailing operator

    [tokens] followed by one more token [o], compared with [tokens] alone.
    A parser that stopped before the end of [tokens] does the same on the
    longer list.  A parser that stopped at the end now sees [o]: a level
    whose class holds [o] steps over it and asks for an operand at the end
    of the list. *)

Section Trailing.

Variable tokens : list string.
Variable o : string.

Let n : nat := List.length tokens.
Let tokens' : list string := tokens ++ [o].

Definition exhausted : outcome (Expression * nat) := Err (Undefined DerefEnd).

(** What the longer list gives where the shorter gave [Ok (e, j)];
    [b] tells whether [o] is an operator of the levels involved. *)
Definition prolonged (b : bool) (e : Expression) (j : nat) : outcome (Expression * nat) :=
  if (j <? n)%nat then Ok (e, j) else if b then exhausted else Ok (e, j).

Definition extends (b : bool) (p' p : parser Expression) : Prop :=
  (forall i e j, p i = Ok (e, j) -> (j <= n)%nat /\ p' i = prolonged b e j)
  /\ p' (S n) = exhausted.

Lemma length_tokens' : List.length tokens' = S n.
Proof. unfold tokens'. rewrite length_app. simpl. fold n. lia. Qed.

Lemma nth_error_before (i : nat) :
  (i < n)%nat -> nth_error tokens' i = nth_error tokens i.
Proof. intros H. apply nth_error_app1. exact H. Qed.

Lemma nth_error_last : nth_error tokens' n = Some o.
Proof.
  unfold tokens'. rewrite nth_error_app2 by (fold n; lia).
  fold n. rewrite Nat.sub_diag. reflexivity.
Qed.

Lemma nth_error_after (i : nat) : (n <= i)%nat -> nth_error tokens i = None.
Proof. intros H. apply nth_error_None. exact H. Qed.

Section Level.

Variable check : string -> bool.
Variable node : string -> Expression -> Expression -> Expression.
Variables operand' operand : parser Expression.
Variable b0 : bool.
Hypothesis check_empty : check "" = false.
Hypothesis operand_extends : extends b0 operand' operand.

Lemma fold_operators_at_end (fuel : nat) (left e : Expression) (i j : nat) :
  (n <= i)%nat ->
  fold_operators tokens fuel check node operand left i = Ok (e, j) ->
  e = left /\ j = i.
Proof.
  intros Hi. destruct fuel as [|fuel]; [discriminate|].
  rewrite fold_operators_unfold, (nth_error_after _ Hi). cbv zeta.
  rewrite check_empty. intros [= <- <-]. split; reflexivity.
Qed.

Lemma fold_operators_extends (fuel : nat) :
  forall left i e j,
    fold_operators tokens fuel check node operand left i = Ok (e, j) ->
    (i <= n)%nat -> (i < n)%nat \/ b0 = false ->
    (j <= n)%nat /\
    fold_operators tokens' (S fuel) check node operand' left i =
    prolonged (b0 || check o) e j.
Proof.
  induction fuel as [|fuel IH]; intros left i e j; [discriminate|].
  intros H Hle Hor.
  rewrite (fold_operators_unfold tokens') , length_tokens'.
  rewrite fold_operators_unfold in H. fold n in H. cbv zeta in *.
  destruct (Nat.eq_dec i n) as [->|Hne].
  - (* the shorter list is exhausted *)
    rewrite (nth_error_after n (Nat.le_refl n)), check_empty in H.
    injection H as <- <-.
    destruct Hor as [Hlt | ->]; [lia|].
    rewrite nth_error_last. split; [lia|].
    unfold prolonged. rewrite Nat.ltb_irrefl. cbn [orb].
    destruct (check o); [|reflexivity].
    assert (Hb : (n <? S n)%nat = true) by (apply Nat.ltb_lt; lia).
    rewrite Hb, (proj2 operand_extends). reflexivity.
  - assert (Hlt : (i < n)%nat) by lia.
    rewrite (nth_error_before _ Hlt).
    destruct (nth_error tokens i) as [t|] eqn:Ht;
      [|apply nth_error_None in Ht; fold n in Ht; lia].
    assert (Hb' : (i <? S n)%nat = true) by (apply Nat.ltb_lt; lia).
    assert (Hb : (i <? n)%nat = true) by (apply Nat.ltb_lt; lia).
    rewrite Hb' . rewrite Hb in H.
    destruct (check t).
    + destruct (operand (S i)) as [[r j1]|f] eqn:Ho; [|discriminate].
      destruct (proj1 operand_extends _ _ _ Ho) as [Hj1 Ho'].
      rewrite Ho'. unfold prolonged at 1.
      destruct (j1 <? n)%nat eqn:Hj1n.
      * apply Nat.ltb_lt in Hj1n. apply (IH _ _ _ _ H); [lia|left; lia].
      * apply Nat.ltb_ge in Hj1n.
        destruct (Bool.bool_dec b0 true) as [Eb|Eb].
        -- rewrite Eb.
           apply fold_operators_at_end in H as [-> ->]; [|lia].
           split; [lia|]. unfold prolonged.
           assert (Hf : (j1 <? n)%nat = false) by (apply Nat.ltb_ge; lia).
           rewrite Hf. reflexivity.
        -- apply not_true_is_false in Eb. rewrite Eb at 1.
           apply (IH _ _ _ _ H); [lia|right; exact Eb].
    + injection H as <- <-. split; [lia|].
      unfold prolonged. rewrite Hb. reflexivity.
Qed.

Lemma level_extends :
  extends (b0 || check o)
    (bind operand' (fun left =>
       fold_operators tokens' (loop_fuel tokens') check node operand' left))
    (bind operand (fun left =>
       fold_operators tokens (loop_fuel tokens) check node operand left)).
Proof.
  split.
  - intros i e j. unfold bind, loop_fuel. rewrite length_tokens'. fold n.
    destruct (operand i) as [[left j0]|f] eqn:Ho; [|discriminate].
    destruct (proj1 operand_extends _ _ _ Ho) as [Hj0 Ho'].
    rewrite Ho'. intros H. unfold prolonged at 1.
    destruct (j0 <? n)%nat eqn:Hj0n.
    + apply Nat.ltb_lt in Hj0n.
      apply (fold_operators_extends _ _ _ _ _ H); [lia|left; lia].
    + apply Nat.ltb_ge in Hj0n.
      destruct (Bool.bool_dec b0 true) as [Eb|Eb].
      * rewrite Eb.
        apply fold_operators_at_end in H as [-> ->]; [|lia].
        split; [lia|]. unfold prolonged.
        assert (Hf : (j0 <? n)%nat = false) by (apply Nat.ltb_ge; lia).
        rewrite Hf. reflexivity.
      * apply not_true_is_false in Eb. rewrite Eb at 1.
        apply (fold_operators_extends _ _ _ _ _ H); [lia|right; exact Eb].
  - unfold bind. rewrite (proj2 operand_extends). reflexivity.
Qed.

End Level.

Lemma parseLogical_with_extends (primary' primary : parser Expression) :
  extends false primary' primary ->
  extends (is_binary_operator o)
    (parseLogical_with tokens' primary') (parseLogical_with tokens primary).
Proof.
  intros H. unfold parseLogical_with, parseRelation_with, parseTerm_with,
    parseFactor_with.
  change (is_binary_operator o)
    with (false || Factor_check o || Term_check o || Relation_check o
          || Logical_check o).
  apply level_extends with (b0 := false || Factor_check o || Term_check o
                                  || Relation_check o); [reflexivity|].
  apply level_extends with (b0 := false || Factor_check o || Term_check o);
    [reflexivity|].
  apply level_extends with (b0 := false || Factor_check o); [reflexivity|].
  apply level_extends with (b0 := false); [reflexivity|].
  exact H.
Qed.

Lemma parsePrimary_extends (fuel : nat) :
  extends false (parsePrimary tokens' (S fuel)) (parsePrimary tokens fuel).
Proof.
  induction fuel as [|fuel IH]; (split;
    [|apply parsePrimary_end; rewrite length_tokens'; lia]).
  - discriminate.
  - intros i e j. rewrite (parsePrimary_unfold tokens), (parsePrimary_unfold tokens').
    rewrite length_tokens'. fold n.
    destruct (nth_error tokens i) as [t|] eqn:Ht; [|discriminate].
    assert (Hlt : (i < n)%nat) by (apply nth_error_Some; congruence).
    rewrite (nth_error_before _ Hlt), Ht.
    assert (Hsame : forall e j, (j <= n)%nat -> prolonged false e j = Ok (e, j)).
    { intros e0 j0 _. unfold prolonged. destruct (j0 <? n)%nat; reflexivity. }
    destruct (stoll t); [| |discriminate].
    + intros [= <- <-]. split; [lia|]. rewrite Hsame by lia. reflexivity.
    + destruct (t =? "("); [|discriminate].
      destruct (parseLogical_with tokens (parsePrimary tokens fuel) (S i))
        as [[e1 j1]|f] eqn:Hp; [|discriminate].
      destruct (proj1 (parseLogical_with_extends _ _ IH) _ _ _ Hp) as [Hj1 Hp'].
      rewrite Hp'. unfold prolonged at 1.
      destruct (j1 <? n)%nat eqn:Hj1n; [|discriminate].
      apply Nat.ltb_lt in Hj1n.
      assert (Hb : (j1 <? S n)%nat = true) by (apply Nat.ltb_lt; lia).
      rewrite Hb. intros [= <- <-]. split; [lia|].
      rewrite Hsame by lia. reflexivity.
Qed.

(** The whole [parse]: what was left unread stays unread, and a complete
    parse followed by a binary operator runs off the end. *)
Lemma parse_extends (e : Expression) (j : nat) :
  parse tokens = Ok (e, j) ->
  parse tokens' = prolonged (is_binary_operator o) e j.
Proof.
  unfold parse, parseLogical, nesting_fuel. rewrite length_tokens'. fold n.
  intros H.
  apply (proj1 (parseLogical_with_extends _ _ (parsePrimary_extends (S n)))
           _ _ _ H).
Qed.

End Trailing.

(** * [main] stays within the recursion budget *)

Lemma calculate_total (e : Expression) : calculate e <> Err OutOfFuel.
Proof.
  induction e as [op l IHl r IHr|op l IHl r IHr|op l IHl r IHr|op l IHl r IHr|v|];
    cbn [calculate]; try discriminate;
    (destruct (calculate l) as [r1|f1]; cbn [obind]; [|exact IHl]);
    (destruct (calculate r) as [r2|f2]; cbn [obind]; [|exact IHr]).
  - unfold Logical_calculate.
    repeat (destruct (strcmpi_eq op _); [discriminate|]). discriminate.
  - unfold Relation_calculate.
    repeat match goal with
           | |- (if ?c then _ else _) <> _ => destruct c; [discriminate|]
           end.
    discriminate.
  - unfold Factor_calculate, ll_div.
    repeat match goal with
           | |- (if ?c then _ else _) <> _ => destruct c; try discriminate
           end.
  - unfold Term_calculate.
    repeat match goal with
           | |- (if ?c then _ else _) <> _ => destruct c; try discriminate
           end.
Qed.

Lemma run_total (input : string) : run input <> Err OutOfFuel.
Proof.
  unfold run, tokenize.
  destruct (List.length (tokens_of input) =? 0)%nat; [discriminate|].
  cbn [obind]. pose proof (parse_total (tokens_of input)) as Hp.
  destruct (parse (tokens_of input)) as [[e j]|f]; cbn [obind].
  - apply calculate_total.
  - congruence.
Qed.

(** * Arithmetic inside the range *)

Lemma wrap64_in_ll (z : Z) : in_ll z -> wrap64 z = z.
Proof.
  unfold in_ll, wrap64, LLONG_MIN, LLONG_MAX. intros H.
  rewrite Z.mod_small; lia.
Qed.

(** * Inputs written with arbitrary literals *)

Lemma append_empty (s : string) : s ++ "" = s.
Proof. induction s as [|c s IH]; simpl; congruence. Qed.

Lemma tokens_of_literal_last (ds : string) :
  starts_with_digit ds = true -> all_digits ds = true -> tokens_of ds = [ds].
Proof.
  intros H0 Hd. rewrite <- (append_empty ds) at 1.
  rewrite tokens_of_literal by auto. reflexivity.
Qed.

Lemma literal_parts (s : string) :
  is_literal s = true -> starts_with_digit s = true /\ all_digits s = true.
Proof.
  unfold is_literal. intros H.
  apply andb_prop in H as [H _]. apply andb_prop in H. exact H.
Qed.

(** Reading the input: drop a character, take an operator, take a literal. *)
Ltac skip_char := cbn [append]; rewrite tokens_of_skip by reflexivity.
Ltac take_op := cbn [append]; erewrite tokens_of_match by reflexivity.
Ltac take_literal H :=
  let H0 := fresh "H0" in
  let Hd := fresh "Hd" in
  destruct (literal_parts _ H) as [H0 Hd];
  first [ rewrite (tokens_of_literal _ _ H0 Hd) by reflexivity
        | rewrite (tokens_of_literal_last _ H0 Hd) ].

(** Walking the parser over a list of tokens given in full. *)
Ltac parser_unfold :=
  unfold parse, parseLogical, parseLogical_with, parseRelation_with,
    parseTerm_with, parseFactor_with, loop_fuel, nesting_fuel;
  cbn [List.length]; unfold bind.

Ltac parser_step :=
  first
    [ erewrite parsePrimary_literal
        by (reflexivity || (apply stoll_literal; assumption))
    | rewrite parsePrimary_end by (cbn [List.length]; lia)
    | erewrite parsePrimary_other by reflexivity
    | erewrite fold_operators_step by reflexivity
    | erewrite fold_operators_stop by reflexivity
    | rewrite fold_operators_end by reflexivity ];
  cbv beta iota.

Lemma tokens_minus_spaced (a b c : string) :
  is_literal a = true -> is_literal b = true -> is_literal c = true ->
  tokens_of (a ++ " - " ++ b ++ " - " ++ c) = [a; "-"; b; "-"; c].
Proof.
  intros Ha Hb Hc.
  take_literal Ha. skip_char. take_op. skip_char.
  take_literal Hb. skip_char. take_op. skip_char.
  take_literal Hc. reflexivity.
Qed.

Lemma tokens_minus_tight (a b c : string) :
  is_literal a = true -> is_literal b = true -> is_literal c = true ->
  tokens_of (a ++ "-" ++ b ++ "-" ++ c) = [a; "-"; b; "-"; c].
Proof.
  intros Ha Hb Hc.
  take_literal Ha. take_op. take_literal Hb. take_op. take_literal Hc.
  reflexivity.
Qed.

Lemma parse_minus_minus (a b c : string) :
  is_literal a = true -> is_literal b = true -> is_literal c = true ->
  parse [a; "-"; b; "-"; c] =
  Ok (Term "-" (Term "-" (Integer (literal_value a)) (Integer (literal_value b)))
        (Integer (literal_value c)), 5%nat).
Proof.
  intros Ha Hb Hc. parser_unfold. repeat parser_step. reflexivity.
Qed.

Lemma tokens_double_equals (a b : string) :
  is_literal a = true -> is_literal b = true ->
  tokens_of (a ++ " == " ++ b) = [a; "="; "="; b].
Proof.
  intros Ha Hb.
  take_literal Ha. skip_char. take_op. take_op. skip_char.
  take_literal Hb. reflexivity.
Qed.

Lemma parse_double_equals (a b : string) :
  is_literal a = true -> is_literal b = true ->
  parse [a; "="; "="; b] = Err SyntaxError.
Proof.
  intros Ha Hb. parser_unfold. repeat parser_step. reflexivity.
Qed.

(** * The operator classes *)

Lemma full_match_literal (lit o : string) :
  full_match (match_literal lit) o = true <-> lower o = lower lit.
Proof.
  unfold full_match. revert o.
  induction lit as [|l lit IH]; intros [|c o]; cbn [match_literal lower].
  - split; reflexivity.
  - split; discriminate.
  - split; discriminate.
  - destruct (Ascii.eqb_spec (to_lower l) (to_lower c)) as [E|E].
    + specialize (IH o).
      destruct (match_literal lit o) as [[m [|r' r]]|]; split; intros H;
        try discriminate H; try reflexivity.
      * rewrite <- E. f_equal. apply IH. reflexivity.
      * injection H as _ H. apply IH in H. discriminate H.
      * injection H as _ H. apply IH in H. discriminate H.
    + split; [discriminate|]. intros [= H _]. congruence.
Qed.

Lemma lower_plain_inv (k t : string) : plain k = true -> lower t = k -> t = k.
Proof.
  intros Hk H. apply String.eqb_eq. rewrite <- (lower_eqb_plain k t Hk).
  apply String.eqb_eq. exact H.
Qed.

Lemma Logical_check_inv (o : string) :
  Logical_check o = true <->
  lower o = "and" \/ lower o = "or" \/ lower o = "xor".
Proof.
  unfold Logical_check, regex_match_alts, keywords. cbn [map existsb].
  rewrite orb_false_r, !orb_true_iff, !full_match_literal. reflexivity.
Qed.

Lemma full_match_class (cls : list ascii) (o : string) :
  full_match (match_class cls) o = true ->
  exists c, o = String c "" /\
            existsb (fun k => Ascii.eqb (to_lower k) (to_lower c)) cls = true.
Proof.
  unfold full_match, match_class. destruct o as [|c [|c' o]]; try discriminate.
  - destruct (existsb _ cls) eqn:E; [|discriminate]. intros _. now exists c.
  - destruct (existsb _ cls); discriminate.
Qed.

Lemma Relation_check_inv (o : string) :
  Relation_check o = true <->
  o = "<=" \/ o = ">=" \/ o = "/=" \/ o = "!=" \/ o = ">" \/ o = "<" \/ o = "=".
Proof.
  split.
  - unfold Relation_check, regex_match_alts, rel2, rel1.
    cbn [map app existsb].
    rewrite orb_false_r, !orb_true_iff, !full_match_literal.
    intros [H|[H|[H|[H|H]]]];
      try (apply lower_plain_inv in H; [tauto|reflexivity]).
    apply full_match_class in H as [c [-> H]]. cbn [existsb] in H.
    rewrite orb_false_r, !orb_true_iff in H.
    assert (Hc : lower (String c "") = ">" \/ lower (String c "") = "<"
                 \/ lower (String c "") = "=").
    { cbn [lower].
      destruct H as [H|[H|H]]; apply Ascii.eqb_eq in H; rewrite <- H; tauto. }
    destruct Hc as [Hc|[Hc|Hc]];
      (apply lower_plain_inv in Hc; [rewrite Hc; tauto|reflexivity]).
  - intros H. repeat destruct H as [H|H]; subst o; reflexivity.
Qed.

Lemma Term_check_inv (o : string) : Term_check o = true <-> o = "+" \/ o = "-".
Proof.
  unfold Term_check. rewrite orb_true_iff, !String.eqb_eq. reflexivity.
Qed.

Lemma Factor_check_inv (o : string) : Factor_check o = true <-> o = "*" \/ o = "/".
Proof.
  unfold Factor_check. rewrite orb_true_iff, !String.eqb_eq. reflexivity.
Qed.

(** Facts that hold for a token as soon as they hold for its lower case. *)
Lemma via_lower (f : string -> bool) (o k : string) (b : bool) :
  (forall t, f (lower t) = f t) -> lower o = k -> f k = b -> f o = b.
Proof. intros Hf Ho Hk. rewrite <- Hf, Ho. exact Hk. Qed.

Lemma stoll_operator (o : string) :
  is_binary_operator o = true -> stoll o = StollInvalid /\ (o =? "(") = false.
Proof.
  unfold is_binary_operator. rewrite !orb_true_iff.
  rewrite Factor_check_inv, Term_check_inv, Relation_check_inv, Logical_check_inv.
  intros H.
  assert (Hl : lower o = "*" \/ lower o = "/" \/ lower o = "+" \/ lower o = "-"
               \/ lower o = "<=" \/ lower o = ">=" \/ lower o = "/="
               \/ lower o = "!=" \/ lower o = ">" \/ lower o = "<"
               \/ lower o = "=" \/ lower o = "and" \/ lower o = "or"
               \/ lower o = "xor").
  { repeat destruct H as [H|H]; try (subst o; cbn; tauto); tauto. }
  split.
  - repeat destruct Hl as [Hl|Hl];
      (eapply (via_lower (fun t => match stoll t with StollInvalid => true | _ => false end)
               o _ true) in Hl;
       [destruct (stoll o); [discriminate Hl|reflexivity|discriminate Hl]
       |intros t; rewrite stoll_lower; reflexivity
       |reflexivity]).
  - repeat destruct Hl as [Hl|Hl];
      (eapply (via_lower (fun t => t =? "(") o _ false) in Hl;
       [exact Hl|intros t; apply lower_eqb_plain; reflexivity|reflexivity]).
Qed.

(** * Failures and a trailing operator

    [tokens] followed by one binary operator [o], where the parse of
    [tokens] fails.  A failure met before the end of [tokens] stays what it
    is.  The increment of [tokens.end()] behind an unclosed parenthesis
    becomes the dereference of [tokens.end()]: the inner expression now goes
    on with [o] and asks for an operand.  The dereference of [tokens.end()]
    becomes a syntax error: the operand asked for is now [o]. *)

Definition carry (f : failure) : failure :=
  match f with
  | Undefined IncrEnd => Undefined DerefEnd
  | Undefined DerefEnd => SyntaxError
  | _ => f
  end.

Section TrailingFailure.

Variable tokens : list string.
Variable o : string.
Hypothesis o_operator : is_binary_operator o = true.

Let n : nat := List.length tokens.
Let tokens' : list string := (tokens ++ [o])%list.

Definition carries (p' p : parser Expression) : Prop :=
  forall i f, (i <= n)%nat -> p i = Err f -> f <> OutOfFuel ->
              p' i = Err (carry f).

Section Level.

Variable check : string -> bool.
Variable node : string -> Expression -> Expression -> Expression.
Variables operand' operand : parser Expression.
Variable b0 : bool.
Hypothesis check_empty : check "" = false.
Hypothesis operand_extends : extends tokens b0 operand' operand.
Hypothesis operand_carries : carries operand' operand.

Lemma fold_operators_carries (fuel : nat) :
  forall left i f, (i <= n)%nat ->
    fold_operators tokens fuel check node operand left i = Err f ->
    f <> OutOfFuel ->
    fold_operators tokens' (S fuel) check node operand' left i = Err (carry f).
Proof.
  induction fuel as [|fuel IH]; intros left i f Hi H Hf.
  - injection H as <-. contradiction Hf. reflexivity.
  - rewrite (fold_operators_unfold tokens'). unfold tokens'.
    rewrite length_tokens'. fold n.
    rewrite fold_operators_unfold in H. fold n in H. cbv zeta in *.
    destruct (nth_error tokens i) as [t|] eqn:Ht.
    + assert (Hlt : (i < n)%nat) by (apply nth_error_Some; congruence).
      rewrite (nth_error_before tokens o i Hlt), Ht.
      assert (Hb' : (i <? S n)%nat = true) by (apply Nat.ltb_lt; lia).
      assert (Hb : (i <? n)%nat = true) by (apply Nat.ltb_lt; lia).
      rewrite Hb'. rewrite Hb in H.
      destruct (check t); [|discriminate].
      destruct (operand (S i)) as [[r j1]|f1] eqn:Ho.
      * destruct (proj1 operand_extends _ _ _ Ho) as [Hj1 Ho'].
        rewrite Ho'. unfold prolonged. fold n.
        destruct (j1 <? n)%nat eqn:Hj1n.
        -- apply (IH _ _ _ Hj1 H Hf).
        -- apply Nat.ltb_ge in Hj1n. exfalso.
           destruct fuel as [|fuel']; [injection H as <-; apply Hf; reflexivity|].
           rewrite fold_operators_unfold, (nth_error_after tokens j1 Hj1n) in H.
           cbv zeta in H. rewrite check_empty in H. discriminate H.
      * injection H as <-.
        rewrite (operand_carries (S i) f1) by first [lia | assumption].
        reflexivity.
    + cbv zeta in H. rewrite check_empty in H. discriminate H.
Qed.

Lemma level_carries :
  carries
    (bind operand' (fun left =>
       fold_operators tokens' (loop_fuel tokens') check node operand' left))
    (bind operand (fun left =>
       fold_operators tokens (loop_fuel tokens) check node operand left)).
Proof.
  intros i f Hi. unfold bind, loop_fuel, tokens'. rewrite length_tokens'.
  destruct (operand i) as [[left j0]|f0] eqn:Ho.
  - destruct (proj1 operand_extends _ _ _ Ho) as [Hj0 Ho'].
    rewrite Ho'. unfold prolonged. intros H Hf.
    destruct (j0 <? List.length tokens)%nat eqn:Hj0n.
    + apply fold_operators_carries; assumption.
    + apply Nat.ltb_ge in Hj0n. exfalso.
      rewrite fold_operators_unfold, (nth_error_after tokens j0 Hj0n) in H.
      cbv zeta in H. rewrite check_empty in H. discriminate H.
  - intros [= <-] Hf.
    rewrite (operand_carries i f0) by first [lia | assumption]. reflexivity.
Qed.

End Level.

Lemma parseLogical_with_carries (primary' primary : parser Expression) :
  extends tokens false primary' primary -> carries primary' primary ->
  carries (parseLogical_with tokens' primary') (parseLogical_with tokens primary).
Proof.
  intros He Hc. unfold parseLogical_with, parseRelation_with, parseTerm_with,
    parseFactor_with.
  apply level_carries with (b0 := false || Factor_check o || Term_check o
                                  || Relation_check o); [reflexivity| |].
  { repeat (apply level_extends; [reflexivity|]). exact He. }
  apply level_carries with (b0 := false || Factor_check o || Term_check o);
    [reflexivity| |].
  { repeat (apply level_extends; [reflexivity|]). exact He. }
  apply level_carries with (b0 := false || Factor_check o); [reflexivity| |].
  { apply level_extends; [reflexivity|]. exact He. }
  apply level_carries with (b0 := false); [reflexivity|exact He|exact Hc].
Qed.

Lemma parsePrimary_carries (fuel : nat) :
  carries (parsePrimary tokens' (S fuel)) (parsePrimary tokens fuel).
Proof.
  induction fuel as [|fuel IH]; intros i f Hi H Hf.
  - injection H as <-. contradiction Hf. reflexivity.
  - rewrite (parsePrimary_unfold tokens'). unfold tokens'.
    rewrite length_tokens'. fold n.
    rewrite parsePrimary_unfold in H. fold n in H.
    destruct (stoll_operator _ o_operator) as [Hs Hp].
    destruct (nth_error tokens i) as [t|] eqn:Ht.
    + assert (Hlt : (i < n)%nat) by (apply nth_error_Some; congruence).
      rewrite (nth_error_before tokens o i Hlt), Ht.
      destruct (stoll t); [discriminate| |injection H as <-; reflexivity].
      destruct (t =? "("); [|injection H as <-; reflexivity].
      destruct (parseLogical_with tokens (parsePrimary tokens fuel) (S i))
        as [[e1 j1]|f1] eqn:Hin.
      * destruct (proj1 (parseLogical_with_extends tokens o _ _
                           (parsePrimary_extends tokens o fuel)) _ _ _ Hin)
          as [Hj1 Hin'].
        rewrite Hin'. unfold prolonged. fold n.
        destruct (j1 <? n)%nat; [discriminate|].
        injection H as <-. rewrite o_operator. reflexivity.
      * injection H as <-.
        pose proof (parseLogical_with_carries _ _
                      (parsePrimary_extends tokens o fuel) IH (S i) f1) as Hc.
        unfold tokens' in Hc. rewrite Hc by first [lia | assumption].
        reflexivity.
    + assert (Hn : i = n).
      { apply nth_error_None in Ht. fold n in Ht. lia. }
      subst i. injection H as <-. unfold n.
      rewrite (nth_error_last tokens o), Hs, Hp. reflexivity.
Qed.

Lemma parse_carries (f : failure) :
  parse tokens = Err f -> parse tokens' = Err (carry f).
Proof.
  intros H. unfold parse, parseLogical, nesting_fuel, tokens'.
  rewrite length_tokens'.
  apply (parseLogical_with_carries _ _
           (parsePrimary_extends tokens o _) (parsePrimary_carries _));
    [lia|exact H|].
  intros ->. exact (parse_total tokens H).
Qed.

(** The longer list runs off its end exactly when the shorter one was read
    to its last token or stopped at the increment behind an unclosed
    parenthesis. *)
Lemma parse_exhausted_iff :
  parse tokens' = Err (Undefined DerefEnd) <->
  (exists e, parse tokens = Ok (e, List.length tokens))
  \/ parse tokens = Err (Undefined IncrEnd).
Proof.
  split.
  - intros H. destruct (parse tokens) as [[e j]|f] eqn:Hp.
    + left. exists e.
      destruct (proj1 (parseLogical_with_extends tokens o _ _
                         (parsePrimary_extends tokens o (S n))) _ _ _ Hp)
        as [Hj _].
      unfold tokens' in H. rewrite (parse_extends tokens o e j Hp) in H.
      unfold prolonged in H.
      destruct (j <? List.length tokens)%nat eqn:Hjn; [discriminate H|].
      apply Nat.ltb_ge in Hjn. f_equal. f_equal. fold n in Hj. unfold n in Hj. lia.
    + right. rewrite (parse_carries _ Hp) in H.
      destruct f as [w| |[]|]; try discriminate H; reflexivity.
  - intros [[e Hp]|Hp].
    + unfold tokens'. rewrite (parse_extends tokens o e _ Hp). unfold prolonged.
      rewrite Nat.ltb_irrefl, o_operator. reflexivity.
    + rewrite (parse_carries _ Hp). reflexivity.
Qed.

End TrailingFailure.

(** * Sample runs

    The input of [main] and the examples of the specification. *)

Example run_main : run "555/5 + 1 -100" = Ok 12%Z.
Proof. vm_compute. reflexivity. Qed.

Example run_literal : run "42" = Ok 42%Z.
Proof. vm_compute. reflexivity. Qed.

Example run_not_equal : run "5 != 5" = Ok 0%Z /\ run "5 /= 5" = Ok 0%Z.
Proof. split; vm_compute; reflexivity. Qed.

Example run_empty : run "" = Err LexError.
Proof. vm_compute. reflexivity. Qed.

Example run_too_large : run "9223372036854775808" = Err OutOfRange.
Proof. vm_compute. reflexivity. Qed.

Example run_negative_and : run "0-1 and 1" = Ok 0%Z /\ run "0-1 xor 0" = Ok 1%Z.
Proof. split; vm_compute; reflexivity. Qed.

(** * The claims of the specification *)

(** C1 (the program departs from the claim).  The token regex has no
    alternative for a double equals sign: for all representable literals [a]
    and [b] the input [a == b] becomes the four tokens [a], [=], [=], [b];
    the first [=] is taken as a relational operator and the second one is not
    a primary, so the run ends with "syntax error (primary)" and never gives
    1 or 0. *)
Theorem C1_double_equals_is_a_syntax_error (a b : string) :
  is_literal a = true -> is_literal b = true ->
  tokenize (a ++ " == " ++ b) = Ok [a; "="; "="; b] /\
  run (a ++ " == " ++ b) = Err SyntaxError.
Proof.
  intros Ha Hb.
  assert (Ht : tokenize (a ++ " == " ++ b) = Ok [a; "="; "="; b]).
  { unfold tokenize. rewrite (tokens_double_equals _ _ Ha Hb). reflexivity. }
  split; [exact Ht|].
  unfold run. rewrite Ht. cbn [obind].
  rewrite (parse_double_equals _ _ Ha Hb). reflexivity.
Qed.

Lemma C1_double_equals_witness :
  tokenize "1 == 1" = Ok ["1"; "="; "="; "1"] /\ run "1 == 1" = Err SyntaxError.
Proof.
  exact (C1_double_equals_is_a_syntax_error "1" "1" eq_refl eq_refl).
Defined.

(** C2 (the program departs from the claim).  [Factor::calculate] divides
    without looking at the divisor: with a right operand that evaluates to 0
    the division itself is undefined, no exception is thrown, and no integer
    is returned.  This holds for every division node whose operands evaluate,
    and for the input [1/0]. *)
Theorem C2_division_by_zero_is_not_guarded :
  (forall l r r1, calculate l = Ok r1 -> calculate r = Ok 0%Z ->
     calculate (Factor "/" l r) = Err (Undefined DivByZero)) /\
  run "1/0" = Err (Undefined DivByZero) /\
  (forall v, run "1/0" <> Ok v) /\
  (forall what, run "1/0" <> Err (Thrown what)).
Proof.
  split; [|split; [|split]].
  - intros l r r1 Hl Hr. cbn [calculate]. rewrite Hl, Hr. reflexivity.
  - vm_compute. reflexivity.
  - intros v. vm_compute. discriminate.
  - intros what. vm_compute. discriminate.
Qed.

Lemma C2_division_by_zero_witness :
  calculate (Factor "/" (Integer 1) (Integer 0)) = Err (Undefined DivByZero).
Proof.
  exact (proj1 C2_division_by_zero_is_not_guarded
           (Integer 1) (Integer 0) 1%Z eq_refl eq_refl).
Defined.

(** C3 (the program departs from the claim).  After the expression inside a
    parenthesis, [parsePrimary] steps over the next token without asking
    whether there is one or whether it is a closing parenthesis.  For every
    token list, when the inner expression ends at [j], the outcome is the
    inner tree with the iterator at [j + 1], or the undefined increment of
    [tokens.end()]: never a syntax error.  The input [(1+2] runs into the
    increment past the end, and [(1 2] evaluates to 1. *)
Theorem C3_closing_parenthesis_is_not_checked :
  (forall tokens fuel i e j,
     nth_error tokens i = Some "(" ->
     parseLogical_with tokens (parsePrimary tokens fuel) (S i) = Ok (e, j) ->
     parsePrimary tokens (S fuel) i =
     if (j <? List.length tokens)%nat then Ok (e, S j)
     else Err (Undefined IncrEnd)) /\
  tokenize "(1+2" = Ok ["("; "1"; "+"; "2"] /\
  parse ["("; "1"; "+"; "2"] = Err (Undefined IncrEnd) /\
  run "(1+2" = Err (Undefined IncrEnd) /\
  parse ["("; "1"; "2"] = Ok (Integer 1, 3%nat) /\
  run "(1 2" = Ok 1%Z.
Proof.
  split; [|repeat split; vm_compute; reflexivity].
  intros tokens fuel i e j Ht Hp.
  rewrite parsePrimary_unfold, Ht, Hp. reflexivity.
Qed.

Lemma C3_closing_parenthesis_witness :
  parsePrimary ["("; "1"; "+"; "2"] 2 0 = Err (Undefined IncrEnd).
Proof.
  exact (proj1 C3_closing_parenthesis_is_not_checked
           ["("; "1"; "+"; "2"] 1%nat 0%nat
           (Term "+" (Integer 1) (Integer 2)) 4%nat eq_refl eq_refl).
Defined.

(** C4 (the program departs from the claim).  [Relation::check] accepts the
    single equals sign, and [Relation::calculate] has no case for it: the
    input [1 = 1] tokenizes and parses, and evaluating the tree throws
    "relation NONE", whatever the operands are. *)
Theorem C4_single_equals_reaches_EvalError :
  tokenize "1 = 1" = Ok ["1"; "="; "1"] /\
  parse ["1"; "="; "1"] = Ok (Relation "=" (Integer 1) (Integer 1), 3%nat) /\
  run "1 = 1" = Err (Thrown "relation NONE") /\
  is_EvalError (Thrown "relation NONE") = true /\
  Relation_check "=" = true /\
  (forall r1 r2, Relation_calculate "=" r1 r2 = Err (Thrown "relation NONE")).
Proof.
  repeat split; try (vm_compute; reflexivity).
Qed.

(** C5, as stated, fails: with the operands -1 and 1, both non-zero, [and]
    returns 0 where the glossary's truth values give 1; with -1 and 0, [or]
    returns 0 where they give 1. *)
Lemma C5_negative_operand_counterexample :
  (in_ll (-1) /\ in_ll 1 /\ in_ll 0) /\
  (Logical_calculate "and" (-1) 1 = Ok 0%Z /\
   glossary_logical "and" (-1) 1 = Ok 1%Z) /\
  (Logical_calculate "or" (-1) 0 = Ok 0%Z /\
   glossary_logical "or" (-1) 0 = Ok 1%Z).
Proof.
  repeat split; try reflexivity; unfold LLONG_MIN, LLONG_MAX; lia.
Qed.

(** C5, amended.  For every pair of operand values, [and] returns 1 exactly
    when both operands are greater than 0 and [or] returns 1 exactly when at
    least one is greater than 0, so a negative operand counts as false for
    these two; [xor] returns 1 exactly when one operand is non-zero and the
    other is zero, so a negative operand counts as true for [xor] only.  Each
    operator returns 0 otherwise.  On operands that are not negative the
    three operators agree with the glossary's truth values, and [xor] agrees
    with them on all operands. *)
Theorem C5_logical_operators_truth (r1 r2 : Z) :
  (Logical_calculate "and" r1 r2 = Ok 1%Z <-> (0 < r1 /\ 0 < r2)%Z) /\
  (Logical_calculate "and" r1 r2 = Ok 0%Z <-> ~ (0 < r1 /\ 0 < r2)%Z) /\
  (Logical_calculate "or" r1 r2 = Ok 1%Z <-> (0 < r1 \/ 0 < r2)%Z) /\
  (Logical_calculate "or" r1 r2 = Ok 0%Z <-> ~ (0 < r1 \/ 0 < r2)%Z) /\
  (Logical_calculate "xor" r1 r2 = Ok 1%Z <->
     (r1 <> 0 /\ r2 = 0)%Z \/ (r1 = 0 /\ r2 <> 0)%Z) /\
  (Logical_calculate "xor" r1 r2 = Ok 0%Z <-> (r1 = 0 <-> r2 = 0)%Z) /\
  Logical_calculate "xor" r1 r2 = glossary_logical "xor" r1 r2 /\
  ((0 <= r1)%Z -> (0 <= r2)%Z ->
   forall op, Logical_calculate op r1 r2 = glossary_logical op r1 r2).
Proof.
  assert (Hand : Logical_calculate "and" r1 r2
                 = Ok (of_bool ((0 <? r1)%Z && (0 <? r2)%Z))) by reflexivity.
  assert (Hor : Logical_calculate "or" r1 r2
                = Ok (of_bool ((0 <? r1)%Z || (0 <? r2)%Z))) by reflexivity.
  assert (Hxor : Logical_calculate "xor" r1 r2
                 = Ok (of_bool (xorb (negb (r1 =? 0)%Z) (negb (r2 =? 0)%Z))))
    by reflexivity.
  rewrite Hand, Hor, Hxor.
  repeat split; try reflexivity;
    try (destruct (Z.ltb_spec 0 r1), (Z.ltb_spec 0 r2); cbn;
         intros; try lia; try discriminate; reflexivity);
    try (destruct (Z.eqb_spec r1 0), (Z.eqb_spec r2 0); cbn;
         intros; try lia; try discriminate; try reflexivity; tauto).
  intros H1 H2 op. unfold Logical_calculate, glossary_logical, glossary_truth.
  destruct (Z.ltb_spec 0 r1), (Z.ltb_spec 0 r2),
    (Z.eqb_spec r1 0), (Z.eqb_spec r2 0); try lia; reflexivity.
Qed.

Lemma C5_logical_operators_witness :
  Logical_calculate "or" 0 7 = glossary_logical "or" 0 7.
Proof.
  refine (proj2 (proj2 (proj2 (proj2 (proj2 (proj2 (proj2
            (C5_logical_operators_truth 0 7))))))) _ _ "or");
    discriminate.
Defined.

(** C6.  [tokenize] throws "wrong syntax" exactly when no token was
    produced, which is when the regex matches nowhere in the input, and it
    fails in no other way.  A position where no alternative of the regex
    matches is skipped.  The input [1@@+2] gives the tokens [1], [+], [2] and
    evaluates to 3. *)
Theorem C6_lex_error_iff_no_token :
  (forall s, tokenize s = Err LexError <-> tokens_of s = []) /\
  (forall s f, tokenize s = Err f -> f = LexError) /\
  (forall s, tokens_of s = [] <-> regex_search token_regex s = None) /\
  (forall s tokens, tokenize s = Ok tokens <-> tokens_of s = tokens /\ tokens <> []) /\
  (forall c s, token_regex (String c s) = None ->
               tokens_of (String c s) = tokens_of s) /\
  tokenize "1@@+2" = Ok ["1"; "+"; "2"] /\
  run "1@@+2" = Ok 3%Z.
Proof.
  split; [|split; [|split; [|split; [|split; [|split]]]]].
  - intros s. unfold tokenize, LexError.
    destruct (tokens_of s) as [|t ts]; cbn; split; congruence.
  - intros s f. unfold tokenize, LexError.
    destruct (List.length (tokens_of s) =? 0)%nat; congruence.
  - intros s. rewrite tokens_of_unfold.
    destruct (regex_search token_regex s) as [[t rest]|]; split; congruence.
  - intros s tokens. unfold tokenize.
    destruct (tokens_of s) as [|t ts]; cbn; split.
    + discriminate.
    + intros [<- H]. congruence.
    + intros [= <-]. split; [reflexivity|discriminate].
    + intros [<- _]. reflexivity.
  - exact tokens_of_skip.
  - vm_compute. reflexivity.
  - vm_compute. reflexivity.
Qed.

Lemma C6_lex_error_witness :
  tokens_of "@+2" = tokens_of "+2" /\ tokenize "@@" = Err LexError.
Proof.
  split.
  - exact (proj1 (proj2 (proj2 (proj2 (proj2 C6_lex_error_iff_no_token))))
             "@"%char "+2" eq_refl).
  - exact (proj2 (proj1 C6_lex_error_iff_no_token "@@") eq_refl).
Defined.

(** C7.  For all representable integer literals [a], [b] and [c], the input
    [a - b - c], with or without the blanks, parses as the subtraction of
    [c] from the subtraction of [b] from [a], all five tokens read, and
    evaluates accordingly; [10-3-2] evaluates to 5. *)
Theorem C7_subtraction_groups_to_the_left (a b c : string) :
  is_literal a = true -> is_literal b = true -> is_literal c = true ->
  let tree :=
    Term "-" (Term "-" (Integer (literal_value a)) (Integer (literal_value b)))
      (Integer (literal_value c)) in
  obind (tokenize (a ++ " - " ++ b ++ " - " ++ c)) parse = Ok (tree, 5%nat) /\
  obind (tokenize (a ++ "-" ++ b ++ "-" ++ c)) parse = Ok (tree, 5%nat) /\
  ((LLONG_MIN <= literal_value a - literal_value b - literal_value c)%Z ->
   run (a ++ " - " ++ b ++ " - " ++ c)
   = Ok (literal_value a - literal_value b - literal_value c)%Z) /\
  run "10-3-2" = Ok 5%Z.
Proof.
  intros Ha Hb Hc tree.
  assert (Hs : tokenize (a ++ " - " ++ b ++ " - " ++ c) = Ok [a; "-"; b; "-"; c]).
  { unfold tokenize. rewrite (tokens_minus_spaced _ _ _ Ha Hb Hc). reflexivity. }
  assert (Ht : tokenize (a ++ "-" ++ b ++ "-" ++ c) = Ok [a; "-"; b; "-"; c]).
  { unfold tokenize. rewrite (tokens_minus_tight _ _ _ Ha Hb Hc). reflexivity. }
  pose proof (parse_minus_minus _ _ _ Ha Hb Hc) as Hp. fold tree in Hp.
  split; [|split; [|split]].
  - rewrite Hs. exact Hp.
  - rewrite Ht. exact Hp.
  - intros Hmin. unfold run. rewrite Hs. cbn [obind]. rewrite Hp.
    pose proof (literal_in_ll _ Ha) as Ia. pose proof (literal_in_ll _ Hb) as Ib.
    pose proof (literal_in_ll _ Hc) as Ic.
    pose proof (digits_value_nonneg a 0 (Z.le_refl 0)) as Pa.
    pose proof (digits_value_nonneg b 0 (Z.le_refl 0)) as Pb.
    pose proof (digits_value_nonneg c 0 (Z.le_refl 0)) as Pc.
    unfold in_ll, literal_value, LLONG_MIN, LLONG_MAX in *.
    unfold tree. cbn [calculate obind].
    change (Term_calculate "-" ?x ?y) with (Ok (A := Z) (wrap64 (x - y))).
    cbn [obind]. rewrite (wrap64_in_ll (digits_value 0 a - digits_value 0 b));
      [|unfold in_ll, LLONG_MIN, LLONG_MAX; lia].
    rewrite wrap64_in_ll; [reflexivity|unfold in_ll, LLONG_MIN, LLONG_MAX; lia].
  - vm_compute. reflexivity.
Qed.

Lemma C7_subtraction_witness :
  obind (tokenize "10 - 3 - 2") parse
  = Ok (Term "-" (Term "-" (Integer 10) (Integer 3)) (Integer 2), 5%nat) /\
  run "10 - 3 - 2" = Ok 5%Z.
Proof.
  pose proof (C7_subtraction_groups_to_the_left "10" "3" "2"
                eq_refl eq_refl eq_refl) as H.
  cbv zeta in H. split; [exact (proj1 H)|].
  refine (proj1 (proj2 (proj2 H)) _). discriminate.
Defined.

(** C8.  [2+3*4] parses with the product as the right operand of the sum and
    evaluates to 14; [(2+3)*4] parses with the sum as the left operand of the
    product and evaluates to 20. *)
Theorem C8_precedence_and_parentheses :
  obind (tokenize "2+3*4") parse
  = Ok (Term "+" (Integer 2) (Factor "*" (Integer 3) (Integer 4)), 5%nat) /\
  run "2+3*4" = Ok 14%Z /\
  obind (tokenize "(2+3)*4") parse
  = Ok (Factor "*" (Term "+" (Integer 2) (Integer 3)) (Integer 4), 7%nat) /\
  run "(2+3)*4" = Ok 20%Z.
Proof. repeat split; vm_compute; reflexivity. Qed.

(** C9.  Two inputs that differ only in the case of letters give tokens that
    differ only in the case of letters, and the same result, a value or a
    failure; in particular every casing of [and], [or] and [xor] gives the
    same result.  [Logical::calculate] does not depend on the case of its
    operator.  [1 AND 1] and [1 and 1] both evaluate to 1. *)
Theorem C9_logical_keywords_ignore_case :
  (forall s s', lower s = lower s' ->
     map lower (tokens_of s) = map lower (tokens_of s') /\ run s = run s') /\
  (forall op op' r1 r2, lower op = lower op' ->
     Logical_check op = Logical_check op' /\
     Logical_calculate op r1 r2 = Logical_calculate op' r1 r2) /\
  tokenize "1 AND 1" = Ok ["1"; "AND"; "1"] /\
  run "1 AND 1" = Ok 1%Z /\
  run "1 and 1" = Ok 1%Z.
Proof.
  split; [|split; [|repeat split; vm_compute; reflexivity]].
  - intros s s' H. split.
    + rewrite <- !tokens_of_lower, H. reflexivity.
    + rewrite <- (run_lower s), <- (run_lower s'), H. reflexivity.
  - intros op op' r1 r2 H. split.
    + rewrite <- (Logical_check_lower op), <- (Logical_check_lower op'), H.
      reflexivity.
    + rewrite <- (Logical_calculate_lower op), <- (Logical_calculate_lower op'), H.
      reflexivity.
Qed.

Lemma C9_logical_keywords_witness :
  run "1 AND 1" = run "1 and 1" /\ run "0 xOr 5" = run "0 XOR 5".
Proof.
  split.
  - exact (proj2 (proj1 C9_logical_keywords_ignore_case
                    "1 AND 1" "1 and 1" eq_refl)).
  - exact (proj2 (proj1 C9_logical_keywords_ignore_case
                    "0 xOr 5" "0 XOR 5" eq_refl)).
Defined.

(** C10, as stated, fails: the tokens of [+] end with a binary operator, and
    the parse ends with "syntax error (primary)" at the first token; the
    tokens of [1 2 +] end with a binary operator too, and the parse returns
    after the first token, so that the run gives 1. *)
Lemma C10_lone_operator_counterexample :
  (tokenize "+" = Ok ["+"] /\ is_binary_operator "+" = true /\
   run "+" = Err SyntaxError) /\
  (tokenize "1 2 +" = Ok ["1"; "2"; "+"] /\
   parse ["1"; "2"; "+"] = Ok (Integer 1, 1%nat) /\ run "1 2 +" = Ok 1%Z).
Proof. repeat split; vm_compute; reflexivity. Qed.

(** C10, amended.  [parsePrimary] reads [*token] first thing: at
    [tokens.end()] the outcome is the undefined dereference, whatever the
    tokens are, and it is no syntax error.  Among the inputs whose tokens end
    with a binary operator, this is reached by those, and only those, whose
    tokens before the operator are read by [parse] to the last one, or to
    the last one inside a parenthesis that is not closed: then the operator
    is taken, an operand is asked for, and the run ends in the dereference of
    [tokens.end()].  The inputs [1+], [(1+] and [2*(3-] are among them. *)
Theorem C10_operand_expected_at_the_end :
  (forall tokens fuel token, (List.length tokens <= token)%nat ->
     parsePrimary tokens (S fuel) token = Err (Undefined DerefEnd)) /\
  (forall tokens o, is_binary_operator o = true ->
     (parse (tokens ++ [o]) = Err (Undefined DerefEnd) <->
      (exists e, parse tokens = Ok (e, List.length tokens))
      \/ parse tokens = Err (Undefined IncrEnd))) /\
  (forall input tokens o,
     tokens_of input = (tokens ++ [o])%list ->
     is_binary_operator o = true ->
     (exists e, parse tokens = Ok (e, List.length tokens))
     \/ parse tokens = Err (Undefined IncrEnd) ->
     run input = Err (Undefined DerefEnd)) /\
  (tokenize "1+" = Ok ["1"; "+"] /\ run "1+" = Err (Undefined DerefEnd)) /\
  (tokenize "(1+" = Ok ["("; "1"; "+"] /\ run "(1+" = Err (Undefined DerefEnd)) /\
  run "2*(3-" = Err (Undefined DerefEnd) /\
  Undefined DerefEnd <> SyntaxError.
Proof.
  split; [exact parsePrimary_end|].
  split; [intros tokens o Ho; exact (parse_exhausted_iff tokens o Ho)|].
  split; [|repeat split; try discriminate; vm_compute; reflexivity].
  intros input tokens o Ht Ho Hp.
  apply (parse_exhausted_iff tokens o Ho) in Hp.
  unfold run, tokenize. rewrite Ht, length_app.
  rewrite Nat.add_comm. cbn [List.length Nat.add Nat.eqb obind].
  rewrite Hp. reflexivity.
Qed.

Lemma C10_operand_expected_witness :
  run "(7)*2 xor" = Err (Undefined DerefEnd) /\
  run "2*(3-" = Err (Undefined DerefEnd).
Proof.
  split.
  - exact (proj1 (proj2 (proj2 C10_operand_expected_at_the_end))
             "(7)*2 xor" ["("; "7"; ")"; "*"; "2"] "xor" eq_refl eq_refl
             (or_introl (ex_intro _ (Factor "*" (Integer 7) (Integer 2)) eq_refl))).
  - exact (proj1 (proj2 (proj2 C10_operand_expected_at_the_end))
             "2*(3-" ["2"; "*"; "("; "3"] "-" eq_refl eq_refl
             (or_intror eq_refl)).
Defined.

(** * More about the operator classes, the parser and the evaluation *)

(** No token belongs to two operator classes, and an operator is neither a
    number for [stoll], nor a parenthesis, nor the empty text that stands for
    the end of the tokens. *)
Theorem operator_classes_are_disjoint (o : string) :
  (Logical_check o = true ->
   Relation_check o = false /\ Term_check o = false /\ Factor_check o = false) /\
  (Relation_check o = true -> Term_check o = false /\ Factor_check o = false) /\
  (Term_check o = true -> Factor_check o = false) /\
  (is_binary_operator o = true ->
   stoll o = StollInvalid /\ o <> "(" /\ o <> ")" /\ o <> "").
Proof.
  split; [|split; [|split]].
  - intros H. apply Logical_check_inv in H.
    repeat split; repeat destruct H as [H|H];
      first [ exact (via_lower Relation_check _ _ false Relation_check_lower H eq_refl)
            | exact (via_lower Term_check _ _ false Term_check_lower H eq_refl)
            | exact (via_lower Factor_check _ _ false Factor_check_lower H eq_refl) ].
  - intros H. apply Relation_check_inv in H.
    repeat destruct H as [H|H]; subst o; split; reflexivity.
  - intros H. apply Term_check_inv in H. destruct H; subst o; reflexivity.
  - intros H. destruct (stoll_operator _ H) as [Hs Hp].
    split; [exact Hs|]. split; [|split]; intros ->; try discriminate.
Qed.

Lemma operator_classes_witness :
  Relation_check "xOr" = false /\ Term_check "xOr" = false /\
  Factor_check "xOr" = false.
Proof.
  exact (proj1 (operator_classes_are_disjoint "xOr") eq_refl).
Defined.

Lemma parse_leading (tokens : list string) (o : string) :
  stoll o = StollInvalid -> (o =? "(") = false ->
  parse (o :: tokens) = Err SyntaxError.
Proof.
  intros Hs Hp. unfold parse, parseLogical, nesting_fuel.
  assert (H : parsePrimary (o :: tokens) (S (List.length (o :: tokens))) 0
              = Err SyntaxError)
    by (apply parsePrimary_other with (t := o); [reflexivity|exact Hs|exact Hp]).
  unfold parseLogical_with, parseRelation_with, parseTerm_with,
    parseFactor_with, bind.
  rewrite H. reflexivity.
Qed.

(** An expression cannot start with an operator or with a closing
    parenthesis: whatever follows, [parse] throws "syntax error (primary)".
    In particular there is no unary minus: every input that starts with a
    minus sign is a syntax error. *)
Theorem leading_operator_is_a_syntax_error :
  (forall tokens o, is_binary_operator o = true \/ o = ")" ->
     parse (o :: tokens) = Err SyntaxError) /\
  (forall s, run (String "-" s) = Err SyntaxError).
Proof.
  split.
  - intros tokens o [H| ->].
    + destruct (stoll_operator _ H). apply parse_leading; assumption.
    + apply parse_leading; reflexivity.
  - intros s. unfold run, tokenize.
    rewrite (tokens_of_match (String "-" s) "-" s eq_refl).
    cbn [List.length Nat.eqb obind].
    rewrite parse_leading by reflexivity. reflexivity.
Qed.

Lemma leading_operator_witness :
  parse ["and"; "1"] = Err SyntaxError /\ run "-5" = Err SyntaxError.
Proof.
  split.
  - exact (proj1 leading_operator_is_a_syntax_error ["1"] "and" (or_introl eq_refl)).
  - exact (proj2 leading_operator_is_a_syntax_error "5").
Defined.

(** ** The trees [parse] builds *)

Lemma stoll_range (t : string) (v : Z) :
  stoll t = StollValue v -> ((LLONG_MIN <=? v) && (v <=? LLONG_MAX))%Z = true.
Proof.
  unfold stoll. destruct (split_sign (skip_space t)) as [neg s2].
  destruct (starts_with_digit s2); [|discriminate].
  cbv zeta.
  destruct ((LLONG_MIN <=? _) && (_ <=? LLONG_MAX))%Z eqn:E; [|discriminate].
  intros [= <-]. exact E.
Qed.

Section BuiltTrees.

Variable tokens : list string.

Definition sound (e : Expression) : Prop :=
  built e = true /\ incl (operators e) tokens.

Definition produces (p : parser Expression) : Prop :=
  forall i e j, p i = Ok (e, j) -> sound e.

Section Level.

Variable check : string -> bool.
Variable node : string -> Expression -> Expression -> Expression.
Variable operand : parser Expression.
Hypothesis node_built : forall op l r,
  built (node op l r) = check op && built l && built r.
Hypothesis node_operators : forall op l r,
  operators (node op l r) = (operators l ++ op :: operators r)%list.
Hypothesis operand_produces : produces operand.

Lemma fold_operators_produces (fuel : nat) :
  forall left i e j, sound left ->
    fold_operators tokens fuel check node operand left i = Ok (e, j) -> sound e.
Proof.
  induction fuel as [|fuel IH]; intros left i e j Hl; [discriminate|].
  rewrite fold_operators_unfold. cbv zeta.
  destruct (nth_error tokens i) as [t|] eqn:Ht.
  - destruct (check t) eqn:Hc; [|intros [= <- _]; exact Hl].
    destruct (i <? List.length tokens)%nat; [|discriminate].
    destruct (operand (S i)) as [[r j1]|f] eqn:Ho; [|discriminate].
    apply IH. destruct Hl as [Hb Hi], (operand_produces _ _ _ Ho) as [Hb' Hi'].
    split.
    + rewrite node_built, Hc, Hb, Hb'. reflexivity.
    + rewrite node_operators. apply incl_app; [exact Hi|].
      apply incl_cons; [|exact Hi']. exact (nth_error_In _ _ Ht).
  - apply nth_error_None in Ht. apply Nat.ltb_ge in Ht. rewrite Ht.
    destruct (check ""); [discriminate|]. intros [= <- _]. exact Hl.
Qed.

Lemma level_produces :
  produces (bind operand (fun left =>
              fold_operators tokens (loop_fuel tokens) check node operand left)).
Proof.
  intros i e j. unfold bind.
  destruct (operand i) as [[left j0]|f] eqn:Ho; [|discriminate].
  apply fold_operators_produces. exact (operand_produces _ _ _ Ho).
Qed.

End Level.

Lemma parseLogical_with_produces (primary : parser Expression) :
  produces primary -> produces (parseLogical_with tokens primary).
Proof.
  intros H. unfold parseLogical_with, parseRelation_with, parseTerm_with,
    parseFactor_with.
  repeat (apply level_produces; [reflexivity|reflexivity|]).
  exact H.
Qed.

Lemma parsePrimary_produces (fuel : nat) : produces (parsePrimary tokens fuel).
Proof.
  induction fuel as [|fuel IH]; intros i e j; [discriminate|].
  rewrite parsePrimary_unfold.
  destruct (nth_error tokens i) as [t|]; [|discriminate].
  destruct (stoll t) as [v| |] eqn:Hs; [| |discriminate].
  - intros [= <- _]. split; [exact (stoll_range _ _ Hs)|].
    intros x [].
  - destruct (t =? "("); [|discriminate].
    destruct (parseLogical_with tokens (parsePrimary tokens fuel) (S i))
      as [[e1 j1]|f] eqn:Hp; [|discriminate].
    destruct (j1 <? List.length tokens)%nat; [|discriminate].
    intros [= <- _]. exact (parseLogical_with_produces _ IH _ _ _ Hp).
Qed.

Lemma parse_sound (e : Expression) (j : nat) :
  parse tokens = Ok (e, j) -> sound e.
Proof.
  unfold parse, parseLogical.
  apply parseLogical_with_produces, parsePrimary_produces.
Qed.

End BuiltTrees.

Lemma Logical_calculate_built (op : string) (r1 r2 : Z) :
  Logical_check op = true -> exists v, Logical_calculate op r1 r2 = Ok v.
Proof.
  intros H. apply Logical_check_inv in H.
  unfold Logical_calculate, strcmpi_eq.
  destruct H as [H|[H|H]]; rewrite H; eexists; reflexivity.
Qed.

Lemma calculate_thrown (e : Expression) (what : string) :
  built e = true -> calculate e = Err (Thrown what) ->
  what = "relation NONE" /\ In "=" (operators e).
Proof.
  induction e as [op l IHl r IHr|op l IHl r IHr|op l IHl r IHr|op l IHl r IHr|v|];
    cbn [built calculate operators]; try discriminate;
    intros Hb; apply andb_prop in Hb as [Hb Hr]; apply andb_prop in Hb as [Hc Hl];
    (destruct (calculate l) as [r1|f1]; cbn [obind];
     [|intros [= ->]; destruct (IHl Hl eq_refl) as [-> Hin];
       split; [reflexivity|apply in_or_app; left; exact Hin]]);
    (destruct (calculate r) as [r2|f2]; cbn [obind];
     [|intros [= ->]; destruct (IHr Hr eq_refl) as [-> Hin];
       split; [reflexivity|apply in_or_app; right; right; exact Hin]]).
  - destruct (Logical_calculate_built op r1 r2 Hc) as [v ->]. discriminate.
  - apply Relation_check_inv in Hc.
    repeat destruct Hc as [Hc|Hc]; subst op; try discriminate.
    intros [= <-]. split; [reflexivity|].
    apply in_or_app. right. left. reflexivity.
  - apply Factor_check_inv in Hc. destruct Hc; subst op; [discriminate|].
    unfold Factor_calculate, ll_div. cbn [String.eqb Ascii.eqb Bool.eqb].
    destruct (r2 =? 0)%Z; [discriminate|].
    destruct ((r1 =? LLONG_MIN) && (r2 =? -1))%Z; discriminate.
  - apply Term_check_inv in Hc. destruct Hc; subst op; discriminate.
Qed.

(** Evaluating a tree that [parse] returned throws no exception but
    "relation NONE", and this one only when a single equals sign is among the
    tokens: the "logical NONE", "term NONE", "factor NONE" and "calculate not
    implemented" exceptions are out of reach, and an input without a single
    equals sign is evaluated without any exception from [calculate]. *)
Theorem parsed_tree_throws_only_for_single_equals
    (tokens : list string) (e : Expression) (j : nat) (what : string) :
  parse tokens = Ok (e, j) -> calculate e = Err (Thrown what) ->
  what = "relation NONE" /\ In "=" tokens.
Proof.
  intros Hp Hc. destruct (parse_sound _ _ _ Hp) as [Hb Hi].
  destruct (calculate_thrown _ _ Hb Hc) as [-> Hin].
  split; [reflexivity|exact (Hi _ Hin)].
Qed.

Lemma parsed_tree_throws_witness :
  "relation NONE" = "relation NONE" /\ In "=" ["2"; "="; "2"; "+"; "0"].
Proof.
  exact (parsed_tree_throws_only_for_single_equals ["2"; "="; "2"; "+"; "0"]
           (Relation "=" (Integer 2) (Term "+" (Integer 2) (Integer 0))) 5
           "relation NONE" eq_refl eq_refl).
Defined.

(** ** A number alone, and a number too large *)

Lemma parsePrimary_out_of_range (tokens : list string) (fuel token : nat) (t : string) :
  nth_error tokens token = Some t -> stoll t = StollOutOfRange ->
  parsePrimary tokens (S fuel) token = Err OutOfRange.
Proof. intros Ht Hs. rewrite parsePrimary_unfold, Ht, Hs. reflexivity. Qed.

(** A run of digits alone evaluates to its decimal value when this is at
    most [LLONG_MAX]; otherwise the [std::out_of_range] of [stoll], which
    [parsePrimary] does not catch, ends the run. *)
Theorem digit_run_alone (s : string) :
  starts_with_digit s = true -> all_digits s = true ->
  run s = if (literal_value s <=? LLONG_MAX)%Z then Ok (literal_value s)
          else Err OutOfRange.
Proof.
  intros H0 Hd. unfold run, tokenize.
  rewrite (tokens_of_literal_last _ H0 Hd). cbn [List.length Nat.eqb obind].
  destruct (literal_value s <=? LLONG_MAX)%Z eqn:Hmax.
  - assert (Hl : is_literal s = true)
      by (unfold is_literal; rewrite H0, Hd, Hmax; reflexivity).
    assert (Hp : parse [s] = Ok (Integer (literal_value s), 1%nat))
      by (parser_unfold; repeat parser_step; reflexivity).
    rewrite Hp. reflexivity.
  - assert (Hs : stoll s = StollOutOfRange).
    { destruct s as [|c s]; [discriminate|]. cbn [starts_with_digit] in H0.
      rewrite (stoll_digit _ _ H0). fold (literal_value (String c s)).
      rewrite Hmax, andb_false_r. reflexivity. }
    assert (Hp : parse [s] = Err OutOfRange).
    { parser_unfold.
      rewrite (parsePrimary_out_of_range [s] _ 0 s eq_refl Hs). reflexivity. }
    rewrite Hp. reflexivity.
Qed.

Lemma digit_run_alone_witness :
  run "0042" = Ok 42%Z /\ run "99999999999999999999" = Err OutOfRange.
Proof.
  split.
  - exact (digit_run_alone "0042" eq_refl eq_refl).
  - exact (digit_run_alone "99999999999999999999" eq_refl eq_refl).
Defined.

(** ** What [parse] reads *)

Lemma parse_in_bounds (tokens : list string) (e : Expression) (j : nat) :
  parse tokens = Ok (e, j) -> (1 <= j <= List.length tokens)%nat.
Proof.
  assert (H : advances tokens (parseLogical_with tokens
                (parsePrimary tokens (nesting_fuel tokens))) 0).
  { apply parseLogical_with_total, parsePrimary_total.
    unfold nesting_fuel. lia. }
  specialize (H 0%nat). unfold parse, parseLogical. intros Hp.
  rewrite Hp in H. apply H. lia.
Qed.

Lemma parse_append (extra tokens : list string) (e : Expression) (j : nat) :
  parse tokens = Ok (e, j) -> (j < List.length tokens)%nat ->
  parse (tokens ++ extra)%list = Ok (e, j).
Proof.
  revert tokens. induction extra as [|o extra IH]; intros tokens Hp Hj.
  - rewrite app_nil_r. exact Hp.
  - change (o :: extra) with ([o] ++ extra)%list. rewrite app_assoc.
    apply IH.
    + rewrite (parse_extends tokens o e j Hp). unfold prolonged.
      apply Nat.ltb_lt in Hj. rewrite Hj. reflexivity.
    + rewrite length_app. lia.
Qed.

(** When [parse] returns, it has read at least one token and the iterator
    is not past [tokens.end()].  When it returns before the end, the tokens
    from the one it stopped at are not looked at: followed by any further
    tokens, the same list gives the same tree and the same iterator, so that
    [main], which never compares the iterator with the end, reports the value
    of the part that was read. *)
Theorem parse_stops_for_good
    (tokens : list string) (e : Expression) (j : nat) :
  parse tokens = Ok (e, j) ->
  (1 <= j <= List.length tokens)%nat /\
  ((j < List.length tokens)%nat ->
   forall extra, parse (tokens ++ extra)%list = Ok (e, j)).
Proof.
  intros Hp. split; [exact (parse_in_bounds _ _ _ Hp)|].
  intros Hj extra. exact (parse_append extra _ _ _ Hp Hj).
Qed.

Lemma parse_stops_for_good_witness :
  parse (["7"; ")"] ++ ["*"; "("])%list = Ok (Integer 7, 1%nat).
Proof.
  refine (proj2 (parse_stops_for_good ["7"; ")"] (Integer 7) 1 eq_refl) _ _).
  cbn. lia.
Defined.

(** ** The relational operators, from the text to the value *)

(** Walking the parser when the class of an operator is known from a
    hypothesis. *)
Ltac parser_walk :=
  first
    [ erewrite parsePrimary_literal
        by (reflexivity || (apply stoll_literal; assumption))
    | rewrite parsePrimary_end by (cbn [List.length]; lia)
    | erewrite fold_operators_step by (reflexivity || eassumption)
    | erewrite fold_operators_stop by (reflexivity || eassumption)
    | rewrite fold_operators_end by reflexivity ];
  cbv beta iota.

Lemma Logical_excludes (o : string) :
  Logical_check o = true ->
  Relation_check o = false /\ Term_check o = false /\ Factor_check o = false.
Proof.
  intros H. apply Logical_check_inv in H.
  repeat split; repeat destruct H as [H|H];
    first [ exact (via_lower Relation_check _ _ false Relation_check_lower H eq_refl)
          | exact (via_lower Term_check _ _ false Term_check_lower H eq_refl)
          | exact (via_lower Factor_check _ _ false Factor_check_lower H eq_refl) ].
Qed.

Lemma Relation_excludes (o : string) :
  Relation_check o = true -> Term_check o = false /\ Factor_check o = false.
Proof.
  intros H. apply Relation_check_inv in H.
  repeat destruct H as [H|H]; subst o; split; reflexivity.
Qed.

Lemma Term_excludes (o : string) : Term_check o = true -> Factor_check o = false.
Proof.
  intros H. apply Term_check_inv in H. destruct H; subst o; reflexivity.
Qed.

Lemma parse_relation (a b op : string) :
  is_literal a = true -> is_literal b = true -> Relation_check op = true ->
  parse [a; op; b]
  = Ok (Relation op (Integer (literal_value a)) (Integer (literal_value b)), 3%nat).
Proof.
  intros Ha Hb Hop. destruct (Relation_excludes _ Hop) as [Ht Hf].
  parser_unfold. repeat parser_walk. reflexivity.
Qed.

Ltac relation_run Ha Hb :=
  unfold run, tokenize;
  take_literal Ha; skip_char; take_op; skip_char; take_literal Hb;
  cbn [List.length Nat.eqb obind];
  erewrite (parse_relation _ _ _ Ha Hb) by reflexivity; reflexivity.

(** For all representable literals [a] and [b], each of the inputs [a < b],
    [a <= b], [a > b], [a >= b], [a != b] and [a /= b] evaluates to 1 when
    the comparison of the two values holds and to 0 when it does not; the
    two spellings of "not equal" agree, and [/=] is not read as a division. *)
Theorem relational_operators_compare (a b : string) :
  is_literal a = true -> is_literal b = true ->
  let x := literal_value a in
  let y := literal_value b in
  run (a ++ " < " ++ b) = Ok (of_bool (x <? y)%Z) /\
  run (a ++ " <= " ++ b) = Ok (of_bool (x <=? y)%Z) /\
  run (a ++ " > " ++ b) = Ok (of_bool (y <? x)%Z) /\
  run (a ++ " >= " ++ b) = Ok (of_bool (y <=? x)%Z) /\
  run (a ++ " != " ++ b) = Ok (of_bool (negb (x =? y)%Z)) /\
  run (a ++ " /= " ++ b) = Ok (of_bool (negb (x =? y)%Z)).
Proof.
  intros Ha Hb x y. subst x y.
  repeat split.
  - relation_run Ha Hb.
  - relation_run Ha Hb.
  - rewrite <- Z.gtb_ltb. relation_run Ha Hb.
  - rewrite <- Z.geb_leb. relation_run Ha Hb.
  - relation_run Ha Hb.
  - relation_run Ha Hb.
Qed.

Lemma relational_operators_witness :
  run "3 < 12" = Ok 1%Z /\ run "3 /= 3" = Ok 0%Z.
Proof.
  pose proof (relational_operators_compare "3" "12" eq_refl eq_refl) as H.
  pose proof (relational_operators_compare "3" "3" eq_refl eq_refl) as H'.
  cbv zeta in H, H'. split.
  - exact (proj1 H).
  - exact (proj2 (proj2 (proj2 (proj2 (proj2 H'))))).
Defined.

(** ** Precedence and grouping, for any operators *)

(** With one operator of each class between five literals, the tree is
    decided by the classes and not by the order of the operators: a
    multiplicative operator binds tighter than an additive one, this one
    tighter than a relational one, and this one tighter than a logical
    keyword, whether the operators come loosest first or tightest first. *)
Theorem precedence_follows_the_classes (a b c d e o1 o2 o3 o4 : string) :
  is_literal a = true -> is_literal b = true -> is_literal c = true ->
  is_literal d = true -> is_literal e = true ->
  Logical_check o1 = true -> Relation_check o2 = true ->
  Term_check o3 = true -> Factor_check o4 = true ->
  let A := Integer (literal_value a) in
  let B := Integer (literal_value b) in
  let C := Integer (literal_value c) in
  let D := Integer (literal_value d) in
  let E := Integer (literal_value e) in
  parse [a; o1; b; o2; c; o3; d; o4; e]
  = Ok (Logical o1 A (Relation o2 B (Term o3 C (Factor o4 D E))), 9%nat) /\
  parse [a; o4; b; o3; c; o2; d; o1; e]
  = Ok (Logical o1 (Relation o2 (Term o3 (Factor o4 A B) C) D) E, 9%nat).
Proof.
  intros Ha Hb Hc Hd He H1 H2 H3 H4.
  destruct (Logical_excludes _ H1) as [H1r [H1t H1f]].
  destruct (Relation_excludes _ H2) as [H2t H2f].
  pose proof (Term_excludes _ H3) as H3f.
  split; parser_unfold; repeat parser_walk; reflexivity.
Qed.

Lemma precedence_follows_the_classes_witness :
  parse ["1"; "or"; "2"; "<"; "3"; "+"; "4"; "*"; "5"]
  = Ok (Logical "or" (Integer 1)
          (Relation "<" (Integer 2)
             (Term "+" (Integer 3) (Factor "*" (Integer 4) (Integer 5)))), 9%nat).
Proof.
  exact (proj1 (precedence_follows_the_classes "1" "2" "3" "4" "5"
                  "or" "<" "+" "*" eq_refl eq_refl eq_refl eq_refl eq_refl
                  eq_refl eq_refl eq_refl eq_refl)).
Defined.

(** Two operators of the same class between three literals group to the
    left, at each of the four levels and whichever two operators of the
    class are used. *)
Theorem every_level_groups_to_the_left (a b c o o' : string) :
  is_literal a = true -> is_literal b = true -> is_literal c = true ->
  let A := Integer (literal_value a) in
  let B := Integer (literal_value b) in
  let C := Integer (literal_value c) in
  (Factor_check o = true -> Factor_check o' = true ->
   parse [a; o; b; o'; c] = Ok (Factor o' (Factor o A B) C, 5%nat)) /\
  (Term_check o = true -> Term_check o' = true ->
   parse [a; o; b; o'; c] = Ok (Term o' (Term o A B) C, 5%nat)) /\
  (Relation_check o = true -> Relation_check o' = true ->
   parse [a; o; b; o'; c] = Ok (Relation o' (Relation o A B) C, 5%nat)) /\
  (Logical_check o = true -> Logical_check o' = true ->
   parse [a; o; b; o'; c] = Ok (Logical o' (Logical o A B) C, 5%nat)).
Proof.
  intros Ha Hb Hc. cbv zeta. split; [|split; [|split]]; intros H H'.
  - parser_unfold; repeat parser_walk; reflexivity.
  - pose proof (Term_excludes _ H). pose proof (Term_excludes _ H').
    parser_unfold; repeat parser_walk; reflexivity.
  - destruct (Relation_excludes _ H), (Relation_excludes _ H').
    parser_unfold; repeat parser_walk; reflexivity.
  - destruct (Logical_excludes _ H) as [? [? ?]].
    destruct (Logical_excludes _ H') as [? [? ?]].
    parser_unfold; repeat parser_walk; reflexivity.
Qed.

Lemma every_level_groups_witness :
  parse ["8"; "/"; "4"; "*"; "2"]
  = Ok (Factor "*" (Factor "/" (Integer 8) (Integer 4)) (Integer 2), 5%nat) /\
  parse ["1"; "<"; "2"; ">="; "1"]
  = Ok (Relation ">=" (Relation "<" (Integer 1) (Integer 2)) (Integer 1), 5%nat).
Proof.
  pose proof (every_level_groups_to_the_left "8" "4" "2" "/" "*"
                eq_refl eq_refl eq_refl) as H.
  pose proof (every_level_groups_to_the_left "1" "2" "1" "<" ">="
                eq_refl eq_refl eq_refl) as H'.
  cbv zeta in H, H'. split.
  - exact (proj1 H eq_refl eq_refl).
  - exact (proj1 (proj2 (proj2 H')) eq_refl eq_refl).
Defined.

(** * More about the tokenizer *)

(** [exact m]: a match and the text after it make up the text matched
    against. *)
Definition exact (m : matcher) : Prop :=
  forall s t rest, m s = Some (t, rest) -> s = t ++ rest.

Lemma match_literal_spec (lit s t rest : string) :
  match_literal lit s = Some (t, rest) -> s = t ++ rest /\ lower t = lower lit.
Proof.
  revert s t rest. induction lit as [|l lit IH]; intros s t rest; cbn [match_literal].
  - intros [= <- <-]. split; reflexivity.
  - destruct s as [|c s]; [discriminate|].
    destruct (Ascii.eqb_spec (to_lower l) (to_lower c)) as [E|_]; [|discriminate].
    destruct (match_literal lit s) as [[m r]|] eqn:Hm; [|discriminate].
    intros [= <- <-]. destruct (IH _ _ _ Hm) as [-> Hl].
    split; [reflexivity|]. cbn [lower]. rewrite Hl, E. reflexivity.
Qed.

Lemma match_alt_spec (lits : list string) (s t rest : string) :
  match_alt lits s = Some (t, rest) ->
  s = t ++ rest /\ exists lit, In lit lits /\ lower t = lower lit.
Proof.
  unfold match_alt. induction lits as [|lit lits IH]; cbn [map match_first];
    [discriminate|].
  destruct (match_literal lit s) as [[m r]|] eqn:Hm.
  - intros [= <- <-]. destruct (match_literal_spec _ _ _ _ Hm) as [-> Hl].
    split; [reflexivity|]. exists lit. split; [left; reflexivity|exact Hl].
  - intros H. destruct (IH H) as [-> [lit' [Hin Hl]]].
    split; [reflexivity|]. exists lit'. split; [right; exact Hin|exact Hl].
Qed.

Lemma match_class_spec (cls : list ascii) (s t rest : string) :
  match_class cls s = Some (t, rest) ->
  s = t ++ rest /\
  exists c, t = String c "" /\ exists k, In k cls /\ to_lower c = to_lower k.
Proof.
  unfold match_class. destruct s as [|c s]; [discriminate|].
  destruct (existsb _ cls) eqn:E; [|discriminate].
  intros [= <- <-]. split; [reflexivity|]. exists c. split; [reflexivity|].
  apply existsb_exists in E as [k [Hin Hk]]. exists k.
  split; [exact Hin|]. apply Ascii.eqb_eq in Hk. congruence.
Qed.

Lemma span_digits_spec (s : string) :
  s = fst (span_digits s) ++ snd (span_digits s) /\
  all_digits (fst (span_digits s)) = true.
Proof.
  induction s as [|c s [IH1 IH2]]; [split; reflexivity|].
  cbn [span_digits]. destruct (is_digit c) eqn:E; [|split; reflexivity].
  destruct (span_digits s) as [ds rest]. cbn [fst snd] in *.
  split; [cbn; congruence|]. cbn [all_digits]. rewrite E, IH2. reflexivity.
Qed.

Lemma match_digits_spec (s t rest : string) :
  match_digits s = Some (t, rest) ->
  s = t ++ rest /\ starts_with_digit t = true /\ all_digits t = true.
Proof.
  unfold match_digits. destruct (span_digits_spec s) as [Hs Hd].
  destruct (span_digits s) as [[|d ds] r]; [discriminate|].
  intros [= <- <-]. cbn [fst snd] in *. split; [exact Hs|].
  split; [|exact Hd]. cbn [all_digits] in Hd. apply andb_prop in Hd. apply Hd.
Qed.

Lemma token_regex_spec (s t rest : string) :
  token_regex s = Some (t, rest) -> s = t ++ rest /\ is_token t = true.
Proof.
  unfold token_regex. cbn [match_first].
  destruct (match_alt keywords s) as [[t1 r1]|] eqn:H1.
  { intros [= <- <-]. destruct (match_alt_spec _ _ _ _ H1) as [Hs [lit [Hin Hl]]].
    split; [exact Hs|].
    assert (Hc : Logical_check t1 = true).
    { apply Logical_check_inv. cbn in Hin.
      repeat destruct Hin as [Hin|Hin]; try contradiction; subst lit; tauto. }
    unfold is_token, is_binary_operator. rewrite Hc, !orb_true_r. reflexivity. }
  destruct (match_alt rel2 s) as [[t2 r2]|] eqn:H2.
  { intros [= <- <-]. destruct (match_alt_spec _ _ _ _ H2) as [Hs [lit [Hin Hl]]].
    split; [exact Hs|].
    assert (Hc : Relation_check t2 = true).
    { cbn in Hin. repeat destruct Hin as [Hin|Hin]; try contradiction; subst lit;
        exact (via_lower Relation_check _ _ true Relation_check_lower Hl eq_refl). }
    unfold is_token, is_binary_operator. rewrite Hc, !orb_true_r. reflexivity. }
  destruct (match_class rel1 s) as [[t3 r3]|] eqn:H3.
  { intros [= <- <-].
    destruct (match_class_spec _ _ _ _ H3) as [Hs [c [-> [k [Hin Hk]]]]].
    split; [exact Hs|].
    assert (Hc : Relation_check (String c "") = true).
    { assert (Hl : lower (String c "") = String (to_lower k) "")
        by (cbn [lower]; rewrite Hk; reflexivity).
      cbn in Hin. repeat destruct Hin as [Hin|Hin]; try contradiction; subst k;
        exact (via_lower Relation_check _ _ true Relation_check_lower Hl eq_refl). }
    unfold is_token, is_binary_operator. rewrite Hc, !orb_true_r. reflexivity. }
  destruct (match_class arith s) as [[t4 r4]|] eqn:H4.
  { intros [= <- <-].
    destruct (match_class_spec _ _ _ _ H4) as [Hs [c [-> [k [Hin Hk]]]]].
    split; [exact Hs|].
    assert (Hc : is_binary_operator (String c "") = true).
    { assert (Hl : lower (String c "") = String (to_lower k) "")
        by (cbn [lower]; rewrite Hk; reflexivity).
      cbn in Hin. repeat destruct Hin as [Hin|Hin]; try contradiction; subst k;
        apply lower_plain_inv in Hl; try reflexivity; rewrite Hl; reflexivity. }
    unfold is_token. rewrite Hc. reflexivity. }
  destruct (match_digits s) as [[t5 r5]|] eqn:H5.
  { intros [= <- <-]. destruct (match_digits_spec _ _ _ H5) as [Hs [H0 Hd]].
    split; [exact Hs|]. unfold is_token. rewrite H0, Hd, !orb_true_r. reflexivity. }
  destruct (match_class parens s) as [[t6 r6]|] eqn:H6; [|discriminate].
  intros [= <- <-].
  destruct (match_class_spec _ _ _ _ H6) as [Hs [c [-> [k [Hin Hk]]]]].
  split; [exact Hs|].
  assert (Hl : lower (String c "") = String (to_lower k) "")
    by (cbn [lower]; rewrite Hk; reflexivity).
  cbn in Hin. repeat destruct Hin as [Hin|Hin]; try contradiction; subst k;
    apply lower_plain_inv in Hl; try reflexivity; rewrite Hl; reflexivity.
Qed.

Lemma regex_search_spec (s t rest : string) :
  regex_search token_regex s = Some (t, rest) ->
  is_token t = true /\ forall x, Subseq x rest -> Subseq (t ++ x) s.
Proof.
  assert (Happ : forall t x rest, Subseq x rest -> Subseq (t ++ x) (t ++ rest)).
  { intros t0 x r H. induction t0 as [|c t0 IH]; [exact H|].
    cbn [append]. apply Subseq_take. exact IH. }
  induction s as [|c s IH]; cbn [regex_search].
  - destruct (token_regex "") as [[t' r']|] eqn:E; [|discriminate].
    intros [= <- <-]. destruct (token_regex_spec _ _ _ E) as [Hs Ht].
    split; [exact Ht|]. intros x Hx. rewrite Hs. apply Happ. exact Hx.
  - destruct (token_regex (String c s)) as [[t' r']|] eqn:E.
    + intros [= <- <-]. destruct (token_regex_spec _ _ _ E) as [Hs Ht].
      split; [exact Ht|]. intros x Hx. rewrite Hs. apply Happ. exact Hx.
    + intros H. destruct (IH H) as [Ht Hsub].
      split; [exact Ht|]. intros x Hx. apply Subseq_skip, Hsub, Hx.
Qed.

Lemma scan_spec (fuel : nat) (s : string) :
  Forall (fun t => is_token t = true) (scan fuel s) /\
  Subseq (flatten (scan fuel s)) s.
Proof.
  revert s. induction fuel as [|fuel IH]; intros s; cbn [scan].
  - split; [constructor|apply Subseq_nil].
  - destruct (regex_search token_regex s) as [[t rest]|] eqn:E.
    + destruct (regex_search_spec _ _ _ E) as [Ht Hsub], (IH rest) as [Hf Hs].
      split; [constructor; assumption|]. cbn [flatten fold_right].
      apply Hsub. exact Hs.
    + split; [constructor|apply Subseq_nil].
Qed.

(** Every token [tokenize] produces is a logical keyword in some casing, a
    relational or arithmetic operator, a non-empty run of digits or a
    parenthesis; no token is empty, and none holds a blank or any other
    character the regex does not know. *)
Theorem tokens_are_recognized (s : string) :
  Forall (fun t => is_token t = true) (tokens_of s) /\
  ~ In "" (tokens_of s).
Proof.
  pose proof (proj1 (scan_spec (String.length s) s)) as H. fold (tokens_of s) in H.
  split; [exact H|]. intros Hin.
  rewrite Forall_forall in H. specialize (H _ Hin). discriminate H.
Qed.

(** The tokens are cut out of the input: their characters, token after
    token, come from the input in the order they have there.  The tokenizer
    drops characters and neither adds nor moves any. *)
Theorem tokens_come_from_the_input (s : string) :
  Subseq (flatten (tokens_of s)) s.
Proof. exact (proj2 (scan_spec (String.length s) s)). Qed.

(** ** Splitting the input at a boundary *)

Definition extend (r : option (string * string)) (tail : string) :
    option (string * string) :=
  match r with
  | Some (t, rest) => Some (t, rest ++ tail)
  | None => None
  end.

Section Boundary.

Variable b : ascii.
Variable tail : string.

(** [cuts m]: on a text followed by [b], the matcher [m] does what it does
    on the text alone. *)
Definition cuts (m : matcher) : Prop :=
  forall c s, m (String c s ++ String b tail) = extend (m (String c s)) (String b tail).

Lemma match_literal_cut (lit s : string) :
  occurs b lit = false ->
  match_literal lit (s ++ String b tail)
  = extend (match_literal lit s) (String b tail).
Proof.
  revert s. induction lit as [|l lit IH]; intros s Ho; [reflexivity|].
  cbn [occurs] in Ho. apply orb_false_elim in Ho as [Hl Ho].
  destruct s as [|c s]; cbn [append match_literal].
  - rewrite Hl. reflexivity.
  - destruct (Ascii.eqb (to_lower l) (to_lower c)); [|reflexivity].
    rewrite (IH s Ho). destruct (match_literal lit s) as [[m r]|]; reflexivity.
Qed.

Lemma cuts_first (alts : list matcher) :
  Forall cuts alts -> cuts (match_first alts).
Proof.
  induction 1 as [|m alts Hm _ IH]; intros c s; [reflexivity|].
  cbn [match_first]. rewrite Hm.
  destruct (m (String c s)) as [[t r]|]; [reflexivity|apply IH].
Qed.

Lemma cuts_alt (lits : list string) :
  existsb (occurs b) lits = false -> cuts (match_alt lits).
Proof.
  intros H. apply cuts_first.
  induction lits as [|lit lits IH]; constructor.
  - intros c s. apply match_literal_cut.
    cbn [existsb] in H. apply orb_false_elim in H. apply H.
  - apply IH. cbn [existsb] in H. apply orb_false_elim in H. apply H.
Qed.

Lemma cuts_class (cls : list ascii) : cuts (match_class cls).
Proof.
  intros c s. cbn [append match_class]. destruct (existsb _ cls); reflexivity.
Qed.

Lemma span_digits_cut (s : string) :
  is_digit b = false ->
  span_digits (s ++ String b tail)
  = (fst (span_digits s), snd (span_digits s) ++ String b tail).
Proof.
  intros Hb. induction s as [|c s IH]; cbn [append span_digits].
  - rewrite Hb. reflexivity.
  - destruct (is_digit c); [|reflexivity].
    rewrite IH. destruct (span_digits s); reflexivity.
Qed.

Lemma cuts_digits : is_digit b = false -> cuts match_digits.
Proof.
  intros Hb c s. unfold match_digits. rewrite (span_digits_cut _ Hb).
  destruct (span_digits (String c s)) as [[|d ds] r]; reflexivity.
Qed.

Hypothesis b_boundary : boundary b = true.

Lemma boundary_parts :
  is_digit b = false /\ existsb (occurs b) keywords = false /\
  existsb (occurs b) rel2 = false.
Proof.
  unfold boundary in b_boundary.
  apply andb_prop in b_boundary as [H _]. apply andb_prop in H as [H _].
  apply andb_prop in H as [Hd Hk].
  apply negb_true_iff in Hd. apply negb_true_iff in Hk.
  rewrite existsb_app in Hk. apply orb_false_elim in Hk.
  split; [exact Hd|exact Hk].
Qed.

Lemma cuts_token_regex : cuts token_regex.
Proof.
  destruct boundary_parts as [Hd [Hk Hr]].
  apply cuts_first. repeat constructor;
    first [ apply cuts_class | apply cuts_digits; exact Hd
          | apply cuts_alt; assumption ].
Qed.

Lemma regex_search_cut (s : string) :
  regex_search token_regex (s ++ String b tail) =
  match regex_search token_regex s with
  | Some (t, rest) => Some (t, rest ++ String b tail)
  | None => regex_search token_regex (String b tail)
  end.
Proof.
  induction s as [|c s IH]; [reflexivity|].
  cbn [append regex_search].
  change (token_regex (String c (s ++ String b tail)))
    with (token_regex (String c s ++ String b tail)).
  rewrite cuts_token_regex.
  destruct (token_regex (String c s)) as [[t r]|]; [reflexivity|exact IH].
Qed.

Lemma tokens_of_cut (s : string) :
  tokens_of (s ++ String b tail) = (tokens_of s ++ tokens_of (String b tail))%list.
Proof.
  remember (String.length s) as n eqn:Hn.
  assert (Hle : (String.length s <= n)%nat) by lia. clear Hn.
  revert s Hle. induction n as [|n IH]; intros s Hle.
  - destruct s; [reflexivity|simpl in Hle; lia].
  - rewrite (tokens_of_unfold (s ++ String b tail)), (tokens_of_unfold s),
      regex_search_cut.
    destruct (regex_search token_regex s) as [[t rest]|] eqn:E.
    + apply regex_search_length in E; [|exact consuming_token_regex].
      cbn [app]. f_equal. apply IH. lia.
    + rewrite <- tokens_of_unfold. reflexivity.
Qed.

End Boundary.

Lemma boundary_starts_no_operator (b : ascii) (tail : string) :
  boundary b = true ->
  match_alt keywords (String b tail) = None /\
  match_alt rel2 (String b tail) = None /\
  match_class rel1 (String b tail) = None /\
  match_class arith (String b tail) = None /\
  match_digits (String b tail) = None.
Proof.
  unfold boundary, in_class. intros H.
  apply andb_prop in H as [H Ha]. apply andb_prop in H as [H Hr1].
  apply andb_prop in H as [Hd Hlit].
  apply negb_true_iff in Ha, Hr1, Hd, Hlit.
  rewrite existsb_app in Hlit. apply orb_false_elim in Hlit as [Hk Hr].
  assert (Halt : forall lits, existsb (occurs b) lits = false ->
                 Forall (fun l => l <> "") lits ->
                 match_alt lits (String b tail) = None).
  { intros lits Ho Hne. unfold match_alt.
    induction Hne as [|lit lits Hl _ IH]; [reflexivity|].
    cbn [existsb] in Ho. apply orb_false_elim in Ho as [Ho Ho'].
    cbn [map match_first].
    change (String b tail) with ("" ++ String b tail) at 1.
    rewrite (match_literal_cut b tail lit "" Ho).
    destruct lit; [congruence|]. cbn [match_literal extend]. apply IH, Ho'. }
  repeat split.
  - apply Halt; [exact Hk|repeat constructor; discriminate].
  - apply Halt; [exact Hr|repeat constructor; discriminate].
  - unfold match_class. rewrite Hr1. reflexivity.
  - unfold match_class. rewrite Ha. reflexivity.
  - unfold match_digits. cbn [span_digits]. rewrite Hd. reflexivity.
Qed.

Lemma separator_skipped (b : ascii) (tail : string) :
  separator b = true -> token_regex (String b tail) = None.
Proof.
  unfold separator. intros H. apply andb_prop in H as [Hb Hp].
  apply negb_true_iff in Hp.
  destruct (boundary_starts_no_operator b tail Hb) as [H1 [H2 [H3 [H4 H5]]]].
  unfold token_regex. cbn [match_first]. rewrite H1, H2, H3, H4, H5.
  unfold match_class. unfold in_class in Hp. rewrite Hp. reflexivity.
Qed.

Lemma parenthesis_taken (b : ascii) (tail : string) :
  boundary b = true -> in_class b parens = true ->
  token_regex (String b tail) = Some (String b "", tail).
Proof.
  intros Hb Hp.
  destruct (boundary_starts_no_operator b tail Hb) as [H1 [H2 [H3 [H4 H5]]]].
  unfold token_regex. cbn [match_first]. rewrite H1, H2, H3, H4, H5.
  unfold match_class. unfold in_class in Hp. rewrite Hp. reflexivity.
Qed.

(** The tokens of a text that holds a boundary character are the tokens of
    what stands before it followed by the tokens of the rest: no token
    reaches across a parenthesis, a blank or any other boundary.  When the
    boundary is a separator it leaves no token itself, and a parenthesis
    leaves itself. *)
Theorem tokens_split_at_a_boundary (s1 s2 : string) (b : ascii) :
  boundary b = true ->
  tokens_of (s1 ++ String b s2) = (tokens_of s1 ++ tokens_of (String b s2))%list /\
  (separator b = true ->
   tokens_of (s1 ++ String b s2) = (tokens_of s1 ++ tokens_of s2)%list) /\
  (in_class b parens = true ->
   tokens_of (s1 ++ String b s2)
   = (tokens_of s1 ++ String b "" :: tokens_of s2)%list).
Proof.
  intros Hb. pose proof (tokens_of_cut b s2 Hb s1) as H.
  split; [exact H|]. split.
  - intros Hs. rewrite H, (tokens_of_skip b s2 (separator_skipped _ _ Hs)).
    reflexivity.
  - intros Hp. rewrite H. f_equal.
    apply tokens_of_match, parenthesis_taken; assumption.
Qed.

Lemma tokens_split_witness :
  tokens_of ("12<" ++ " =3") = (tokens_of "12<" ++ tokens_of "=3")%list /\
  tokens_of ("1+2" ++ ")*3") = (tokens_of "1+2" ++ ")" :: tokens_of "*3")%list.
Proof.
  split.
  - exact (proj1 (proj2 (tokens_split_at_a_boundary "12<" "=3" " " eq_refl)) eq_refl).
  - exact (proj2 (proj2 (tokens_split_at_a_boundary "1+2" "*3" ")" eq_refl)) eq_refl).
Defined.

(** * Parentheses *)

Definition shift_result (r : outcome (Expression * nat)) : outcome (Expression * nat) :=
  match r with
  | Ok (e, j) => Ok (e, S j)
  | Err f => Err f
  end.

(** The tokens behind a first token [t0]: a parser started behind [t0] does
    what it does on the tokens alone, one position further. *)
Section Shift.

Variable t0 : string.
Variable tokens : list string.

Definition shifted (p' p : parser Expression) : Prop :=
  forall i, p i <> Err OutOfFuel -> p' (S i) = shift_result (p i).

Section Level.

Variable check : string -> bool.
Variable node : string -> Expression -> Expression -> Expression.
Variables operand' operand : parser Expression.
Hypothesis operand_shifted : shifted operand' operand.

Lemma fold_operators_shifted (fuel : nat) :
  forall fuel' left, (fuel <= fuel')%nat ->
    shifted (fold_operators (t0 :: tokens) fuel' check node operand' left)
            (fold_operators tokens fuel check node operand left).
Proof.
  induction fuel as [|fuel IH]; intros fuel' left Hle i H.
  - contradiction H. reflexivity.
  - destruct fuel' as [|fuel']; [lia|].
    rewrite fold_operators_unfold in H. rewrite !fold_operators_unfold.
    cbv zeta in *. cbn [nth_error List.length].
    change (S i <? S (List.length tokens))%nat with (i <? List.length tokens)%nat.
    destruct (check _); [|reflexivity].
    destruct (i <? List.length tokens)%nat; [|reflexivity].
    assert (Ho : operand (S i) <> Err OutOfFuel).
    { intros E. rewrite E in H. contradiction H. reflexivity. }
    rewrite (operand_shifted _ Ho).
    destruct (operand (S i)) as [[r j]|f]; [|reflexivity].
    cbn [shift_result]. apply IH; [lia|exact H].
Qed.

Lemma level_shifted :
  shifted
    (bind operand' (fun left =>
       fold_operators (t0 :: tokens) (loop_fuel (t0 :: tokens)) check node operand' left))
    (bind operand (fun left =>
       fold_operators tokens (loop_fuel tokens) check node operand left)).
Proof.
  intros i. unfold bind. intros H.
  assert (Ho : operand i <> Err OutOfFuel).
  { intros E. rewrite E in H. contradiction H. reflexivity. }
  rewrite (operand_shifted _ Ho).
  destruct (operand i) as [[left j]|f]; [|reflexivity].
  cbn [shift_result].
  apply fold_operators_shifted; [unfold loop_fuel; cbn [List.length]; lia|exact H].
Qed.

End Level.

Lemma parseLogical_with_shifted (primary' primary : parser Expression) :
  shifted primary' primary ->
  shifted (parseLogical_with (t0 :: tokens) primary')
          (parseLogical_with tokens primary).
Proof.
  intros H. unfold parseLogical_with, parseRelation_with, parseTerm_with,
    parseFactor_with.
  repeat apply level_shifted. exact H.
Qed.

Lemma parsePrimary_shifted (fuel : nat) :
  forall fuel', (fuel <= fuel')%nat ->
    shifted (parsePrimary (t0 :: tokens) fuel') (parsePrimary tokens fuel).
Proof.
  induction fuel as [|fuel IH]; intros fuel' Hle i H.
  - contradiction H. reflexivity.
  - destruct fuel' as [|fuel']; [lia|].
    rewrite parsePrimary_unfold in H. rewrite !parsePrimary_unfold.
    cbn [nth_error List.length].
    destruct (nth_error tokens i) as [t|]; [|reflexivity].
    destruct (stoll t); try reflexivity.
    destruct (t =? "("); [|reflexivity].
    assert (Hin : parseLogical_with tokens (parsePrimary tokens fuel) (S i)
                  <> Err OutOfFuel).
    { intros E. rewrite E in H. contradiction H. reflexivity. }
    rewrite (parseLogical_with_shifted _ _ (IH fuel' ltac:(lia)) _ Hin).
    destruct (parseLogical_with tokens (parsePrimary tokens fuel) (S i))
      as [[e j]|f]; [|reflexivity].
    cbn [shift_result].
    change (S j <? S (List.length tokens))%nat with (j <? List.length tokens)%nat.
    destruct (j <? List.length tokens)%nat; reflexivity.
Qed.

Lemma parse_shifted (fuel : nat) :
  (nesting_fuel tokens <= fuel)%nat ->
  parseLogical_with (t0 :: tokens) (parsePrimary (t0 :: tokens) fuel) 1
  = shift_result (parse tokens).
Proof.
  intros Hle. unfold parse, parseLogical.
  apply parseLogical_with_shifted; [apply parsePrimary_shifted; exact Hle|].
  exact (parse_total tokens).
Qed.

End Shift.

Lemma parse_in_parentheses (tokens : list string) (e : Expression) :
  parse tokens = Ok (e, List.length tokens) ->
  parse ("(" :: tokens ++ [")"]) = Ok (e, S (S (List.length tokens))).
Proof.
  intros Hp.
  assert (Hu : parse (tokens ++ [")"]) = Ok (e, List.length tokens)).
  { rewrite (parse_extends tokens ")" e _ Hp). unfold prolonged.
    rewrite Nat.ltb_irrefl. reflexivity. }
  assert (Hlen : List.length ("(" :: tokens ++ [")"]) = S (S (List.length tokens))).
  { cbn [List.length]. rewrite length_app. cbn [List.length]. lia. }
  assert (Hprim : parsePrimary ("(" :: tokens ++ [")"])
                    (nesting_fuel ("(" :: tokens ++ [")"])) 0
                  = Ok (e, S (S (List.length tokens)))).
  { unfold nesting_fuel at 1. rewrite parsePrimary_unfold.
    cbn [nth_error]. change (stoll "(") with StollInvalid.
    change ("(" =? "(") with true. cbv iota.
    rewrite parse_shifted, Hu by (unfold nesting_fuel; cbn [List.length]; lia).
    cbn [shift_result]. rewrite Hlen.
    assert (Hb : (S (List.length tokens) <? S (S (List.length tokens)))%nat = true)
      by (apply Nat.ltb_lt; lia).
    rewrite Hb. reflexivity. }
  assert (Hend : nth_error ("(" :: tokens ++ [")"]) (S (S (List.length tokens))) = None)
    by (apply nth_error_None; rewrite Hlen; lia).
  unfold parse, parseLogical, parseLogical_with, parseRelation_with,
    parseTerm_with, parseFactor_with, bind.
  rewrite Hprim. unfold loop_fuel.
  rewrite !fold_operators_end by (exact Hend || reflexivity).
  reflexivity.
Qed.

(** A complete expression between parentheses gives the tree of the
    expression itself: the parentheses leave no node, and the input between
    parentheses has the result of the input alone. *)
Theorem parentheses_are_transparent :
  (forall tokens e,
     parse tokens = Ok (e, List.length tokens) ->
     parse ("(" :: tokens ++ [")"]) = Ok (e, S (S (List.length tokens)))) /\
  (forall s e,
     parse (tokens_of s) = Ok (e, List.length (tokens_of s)) ->
     run ("(" ++ s ++ ")") = run s).
Proof.
  split; [exact parse_in_parentheses|].
  intros s e Hp.
  assert (Ht : tokens_of ("(" ++ s ++ ")") = "(" :: tokens_of s ++ [")"]).
  { cbn [append]. rewrite (tokens_of_match (String "(" (s ++ ")")) "(" (s ++ ")") eq_refl).
    f_equal. exact (tokens_of_cut ")" "" eq_refl s). }
  assert (Hne : tokens_of s <> []).
  { intros E. rewrite E in Hp. discriminate Hp. }
  unfold run, tokenize. rewrite Ht.
  destruct (tokens_of s) as [|t ts] eqn:Hs; [congruence|].
  cbn [List.length Nat.eqb obind].
  rewrite (parse_in_parentheses _ _ Hp), Hp. reflexivity.
Qed.

Lemma parentheses_are_transparent_witness :
  run ("(" ++ "7 - 2 * 3" ++ ")") = run "7 - 2 * 3".
Proof.
  exact (proj2 parentheses_are_transparent "7 - 2 * 3"
           (Term "-" (Integer 7) (Factor "*" (Integer 2) (Integer 3))) eq_refl).
Defined.

(** * Tokens written out and read again *)

Lemma lower_empty (s : string) : lower s = "" -> s = "".
Proof. destruct s; [reflexivity|discriminate]. Qed.

(** A text whose lower case the regex matches whole is matched whole. *)
Lemma token_regex_via_lower (t : string) :
  token_regex (lower t) = Some (lower t, "") -> token_regex t = Some (t, "").
Proof.
  rewrite icase_token_regex.
  destruct (token_regex t) as [[t' r']|] eqn:E; [|discriminate].
  cbn [lower_match]. intros [= _ Hr]. apply lower_empty in Hr. subst r'.
  destruct (token_regex_spec _ _ _ E) as [Hs _].
  rewrite append_empty in Hs. subst t'. reflexivity.
Qed.

Lemma token_alone (t : string) : is_token t = true -> tokens_of t = [t].
Proof.
  unfold is_token. rewrite !orb_true_iff, andb_true_iff, !String.eqb_eq.
  intros [[[H|[H0 Hd]]|H]|H].
  - rewrite (tokens_of_match t t ""); [reflexivity|].
    apply token_regex_via_lower.
    unfold is_binary_operator in H. rewrite !orb_true_iff in H.
    rewrite Factor_check_inv, Term_check_inv, Relation_check_inv,
      Logical_check_inv in H.
    repeat destruct H as [H|H]; try (subst t; reflexivity);
      rewrite H; reflexivity.
  - exact (tokens_of_literal_last _ H0 Hd).
  - subst t. reflexivity.
  - subst t. reflexivity.
Qed.

Lemma tokens_of_join (ts : list string) :
  Forall (fun t => is_token t = true) ts -> tokens_of (join ts) = ts.
Proof.
  induction 1 as [|t ts Ht _ IH]; [reflexivity|].
  cbn [join]. rewrite (tokens_of_cut " " (join ts) eq_refl t).
  rewrite (tokens_of_skip " " (join ts) eq_refl), (token_alone _ Ht), IH.
  reflexivity.
Qed.

(** Tokenizing is a projection: the tokens of an input, written out with
    blanks between them, tokenize to themselves, and this text has the result
    of the input.  More generally every list of keywords, operators, digit
    runs and parentheses is the list of tokens of the text that writes them
    out. *)
Theorem tokens_read_back :
  (forall ts, Forall (fun t => is_token t = true) ts -> tokens_of (join ts) = ts) /\
  (forall s, tokens_of (join (tokens_of s)) = tokens_of s) /\
  (forall s, run (join (tokens_of s)) = run s).
Proof.
  assert (H : forall s, tokens_of (join (tokens_of s)) = tokens_of s).
  { intros s. apply tokens_of_join.
    exact (proj1 (scan_spec (String.length s) s)). }
  split; [exact tokens_of_join|]. split; [exact H|].
  intros s. unfold run, tokenize. rewrite H. reflexivity.
Qed.

Lemma tokens_read_back_witness :
  tokens_of (join ["("; "12"; "XoR"; "0"; ")"; "/="; "3"])
  = ["("; "12"; "XoR"; "0"; ")"; "/="; "3"].
Proof.
  apply (proj1 tokens_read_back). repeat constructor.
Defined.

(** * Arithmetic on two literals *)

Lemma parse_binary (a b op : string) :
  is_literal a = true -> is_literal b = true ->
  parse [a; op; b] =
  let A := Integer (literal_value a) in
  let B := Integer (literal_value b) in
  if Factor_check op then Ok (Factor op A B, 3%nat)
  else if Term_check op then Ok (Term op A B, 3%nat)
  else if Relation_check op then Ok (Relation op A B, 3%nat)
  else if Logical_check op then Ok (Logical op A B, 3%nat)
  else Ok (A, 1%nat).
Proof.
  intros Ha Hb. cbv zeta.
  destruct (Factor_check op) eqn:Hf;
    [parser_unfold; repeat parser_walk; reflexivity|].
  destruct (Term_check op) eqn:Ht;
    [parser_unfold; repeat parser_walk; reflexivity|].
  destruct (Relation_check op) eqn:Hr;
    [parser_unfold; repeat parser_walk; reflexivity|].
  destruct (Logical_check op) eqn:Hl;
    parser_unfold; repeat parser_walk; reflexivity.
Qed.

Ltac binary_run Ha Hb :=
  unfold run, tokenize;
  take_literal Ha; skip_char; take_op; skip_char; take_literal Hb;
  cbn [List.length Nat.eqb obind];
  rewrite (parse_binary _ _ _ Ha Hb); cbv zeta;
  cbn [Factor_check Term_check String.eqb Ascii.eqb Bool.eqb orb obind calculate].

(** For all representable literals [a] and [b] with the values [x] and [y]:
    [a - b] evaluates to [x - y]; [a + b] and [a * b] evaluate to the sum and
    the product when these are at most [LLONG_MAX]; [a / b] is the undefined
    division when [y] is 0 and otherwise the quotient rounded down, the [q]
    with [q * y <= x < (q + 1) * y]. *)
Theorem arithmetic_on_literals (a b : string) :
  is_literal a = true -> is_literal b = true ->
  let x := literal_value a in
  let y := literal_value b in
  run (a ++ " - " ++ b) = Ok (x - y)%Z /\
  ((x + y <= LLONG_MAX)%Z -> run (a ++ " + " ++ b) = Ok (x + y)%Z) /\
  ((x * y <= LLONG_MAX)%Z -> run (a ++ " * " ++ b) = Ok (x * y)%Z) /\
  (y = 0%Z -> run (a ++ " / " ++ b) = Err (Undefined DivByZero)) /\
  (y <> 0%Z -> exists q, run (a ++ " / " ++ b) = Ok q /\
                         (q * y <= x < (q + 1) * y)%Z).
Proof.
  intros Ha Hb x y.
  pose proof (literal_in_ll _ Ha) as Ia. pose proof (literal_in_ll _ Hb) as Ib.
  pose proof (digits_value_nonneg a 0 (Z.le_refl 0)) as Pa.
  pose proof (digits_value_nonneg b 0 (Z.le_refl 0)) as Pb.
  fold (literal_value a) in Pa. fold (literal_value b) in Pb.
  fold x in Ia, Pa. fold y in Ib, Pb.
  unfold in_ll, LLONG_MIN, LLONG_MAX in *.
  split; [|split; [|split; [|split]]].
  - binary_run Ha Hb. unfold Term_calculate.
    cbn [String.eqb Ascii.eqb Bool.eqb]. fold x y.
    rewrite wrap64_in_ll; [reflexivity|unfold in_ll, LLONG_MIN, LLONG_MAX; lia].
  - intros Hmax. binary_run Ha Hb. unfold Term_calculate.
    cbn [String.eqb Ascii.eqb Bool.eqb]. fold x y.
    rewrite wrap64_in_ll; [reflexivity|unfold in_ll, LLONG_MIN, LLONG_MAX; lia].
  - intros Hmax. binary_run Ha Hb. unfold Factor_calculate.
    cbn [String.eqb Ascii.eqb Bool.eqb]. fold x y.
    rewrite wrap64_in_ll; [reflexivity|unfold in_ll, LLONG_MIN, LLONG_MAX; nia].
  - intros Hy. binary_run Ha Hb. unfold Factor_calculate, ll_div.
    cbn [String.eqb Ascii.eqb Bool.eqb]. fold x y. rewrite Hy. reflexivity.
  - intros Hy. exists (x / y)%Z. split.
    + binary_run Ha Hb. unfold Factor_calculate, ll_div.
      cbn [String.eqb Ascii.eqb Bool.eqb]. fold x y.
      destruct (Z.eqb_spec y 0) as [E|_]; [contradiction|].
      assert (Hx : (x =? -9223372036854775808)%Z = false)
        by (apply Z.eqb_neq; lia).
      unfold LLONG_MIN. rewrite Hx. cbn [andb].
      rewrite Z.quot_div_nonneg by lia. reflexivity.
    + assert (Hpos : (0 < y)%Z) by lia.
      pose proof (Z.mul_div_le x y Hpos).
      pose proof (Z.mul_succ_div_gt x y Hpos). nia.
Qed.

Lemma arithmetic_on_literals_witness :
  run "7 - 12" = Ok (-5)%Z /\ run "7 / 0" = Err (Undefined DivByZero).
Proof.
  pose proof (arithmetic_on_literals "7" "12" eq_refl eq_refl) as H.
  pose proof (arithmetic_on_literals "7" "0" eq_refl eq_refl) as H'.
  cbv zeta in H, H'. split.
  - exact (proj1 H).
  - exact (proj1 (proj2 (proj2 (proj2 H'))) eq_refl).
Defined.

(** * The ways a run can fail *)

Definition parse_failure (f : failure) : Prop :=
  f = SyntaxError \/ f = OutOfRange \/ f = Undefined DerefEnd
  \/ f = Undefined IncrEnd \/ f = OutOfFuel.

Section ParseFailures.

Variable tokens : list string.

Definition fails_as_parser (p : parser Expression) : Prop :=
  forall i f, p i = Err f -> parse_failure f.

Section Level.

Variable check : string -> bool.
Variable node : string -> Expression -> Expression -> Expression.
Variable operand : parser Expression.
Hypothesis operand_fails : fails_as_parser operand.

Lemma fold_operators_fails (fuel : nat) :
  forall left, fails_as_parser (fold_operators tokens fuel check node operand left).
Proof.
  induction fuel as [|fuel IH]; intros left i f.
  - intros [= <-]. unfold parse_failure. tauto.
  - rewrite fold_operators_unfold. cbv zeta.
    destruct (check _); [|discriminate].
    destruct (i <? List.length tokens)%nat;
      [|intros [= <-]; unfold parse_failure; tauto].
    destruct (operand (S i)) as [[r j]|f'] eqn:Ho.
    + apply IH.
    + intros [= <-]. exact (operand_fails _ _ Ho).
Qed.

Lemma level_fails :
  fails_as_parser (bind operand (fun left =>
    fold_operators tokens (loop_fuel tokens) check node operand left)).
Proof.
  intros i f. unfold bind.
  destruct (operand i) as [[left j]|f'] eqn:Ho.
  - apply fold_operators_fails.
  - intros [= <-]. exact (operand_fails _ _ Ho).
Qed.

End Level.

Lemma parseLogical_with_fails (primary : parser Expression) :
  fails_as_parser primary -> fails_as_parser (parseLogical_with tokens primary).
Proof.
  intros H. unfold parseLogical_with, parseRelation_with, parseTerm_with,
    parseFactor_with.
  repeat apply level_fails. exact H.
Qed.

Lemma parsePrimary_fails (fuel : nat) : fails_as_parser (parsePrimary tokens fuel).
Proof.
  induction fuel as [|fuel IH]; intros i f.
  - intros [= <-]. unfold parse_failure. tauto.
  - rewrite parsePrimary_unfold.
    destruct (nth_error tokens i) as [t|];
      [|intros [= <-]; unfold parse_failure; tauto].
    destruct (stoll t); [discriminate| |intros [= <-]; unfold parse_failure; tauto].
    destruct (t =? "("); [|intros [= <-]; unfold parse_failure; tauto].
    destruct (parseLogical_with tokens (parsePrimary tokens fuel) (S i))
      as [[e j]|f'] eqn:Hp.
    + destruct (j <? List.length tokens)%nat; [discriminate|].
      intros [= <-]. unfold parse_failure. tauto.
    + intros [= <-]. exact (parseLogical_with_fails _ IH _ _ Hp).
Qed.

Lemma parse_fails (f : failure) :
  parse tokens = Err f ->
  f = SyntaxError \/ f = OutOfRange \/ f = Undefined DerefEnd
  \/ f = Undefined IncrEnd.
Proof.
  intros H.
  assert (Hf : parse_failure f)
    by exact (parseLogical_with_fails _ (parsePrimary_fails _) _ _ H).
  destruct Hf as [Hf|[Hf|[Hf|[Hf|Hf]]]]; try tauto.
  subst f. exfalso. exact (parse_total tokens H).
Qed.

End ParseFailures.

Lemma calculate_fails (e : Expression) (f : failure) :
  built e = true -> calculate e = Err f ->
  f = Thrown "relation NONE" \/ f = Undefined DivByZero
  \/ f = Undefined DivOverflow.
Proof.
  induction e as [op l IHl r IHr|op l IHl r IHr|op l IHl r IHr|op l IHl r IHr|v|];
    cbn [built calculate]; try discriminate;
    intros Hb; apply andb_prop in Hb as [Hb Hr]; apply andb_prop in Hb as [Hc Hl];
    (destruct (calculate l) as [r1|f1]; cbn [obind];
     [|intros [= ->]; exact (IHl Hl eq_refl)]);
    (destruct (calculate r) as [r2|f2]; cbn [obind];
     [|intros [= ->]; exact (IHr Hr eq_refl)]).
  - destruct (Logical_calculate_built op r1 r2 Hc) as [v ->]. discriminate.
  - apply Relation_check_inv in Hc.
    repeat destruct Hc as [Hc|Hc]; subst op; try discriminate.
    intros [= <-]. tauto.
  - apply Factor_check_inv in Hc. destruct Hc; subst op; [discriminate|].
    unfold Factor_calculate, ll_div. cbn [String.eqb Ascii.eqb Bool.eqb].
    destruct (r2 =? 0)%Z; [intros [= <-]; tauto|].
    destruct ((r1 =? LLONG_MIN) && (r2 =? -1))%Z; [intros [= <-]; tauto|].
    discriminate.
  - apply Term_check_inv in Hc. destruct Hc; subst op; discriminate.
Qed.

(** A run that gives no value ends in one of eight ways.  The exceptions
    are "wrong syntax" from [tokenize], "syntax error (primary)" and
    [std::out_of_range] from [parse], and "relation NONE" from [calculate];
    the undefined steps are the dereference and the increment of
    [tokens.end()] in [parse], and the division by zero and of [LLONG_MIN] by
    -1 in [calculate].  When the tokens are read without failure, only the
    three failures of [calculate] remain. *)
Theorem run_failures (input : string) (f : failure) :
  run input = Err f ->
  In f [ LexError; SyntaxError; OutOfRange;
         Undefined DerefEnd; Undefined IncrEnd;
         Thrown "relation NONE"; Undefined DivByZero; Undefined DivOverflow ] /\
  (forall e j, parse (tokens_of input) = Ok (e, j) ->
     In f [ Thrown "relation NONE"; Undefined DivByZero; Undefined DivOverflow ]).
Proof.
  unfold run, tokenize.
  destruct (tokens_of input) as [|t ts] eqn:Ht; cbn [List.length Nat.eqb obind].
  - intros [= <-]. split; [left; reflexivity|]. discriminate.
  - rewrite <- Ht.
    destruct (parse (tokens_of input)) as [[e j]|f'] eqn:Hp; cbn [obind].
    + intros Hc. destruct (parse_sound _ _ _ Hp) as [Hb _].
      assert (H : In f [ Thrown "relation NONE"; Undefined DivByZero;
                         Undefined DivOverflow ]).
      { destruct (calculate_fails _ _ Hb Hc) as [-> | [-> | ->]]; cbn; tauto. }
      split; [|intros _ _ _; exact H].
      cbn in *. tauto.
    + intros [= <-]. split; [|discriminate].
      destruct (parse_fails _ _ Hp) as [-> | [-> | [-> | ->]]]; cbn; tauto.
Qed.

Lemma run_failures_witness :
  In (Undefined DivOverflow)
     [ Thrown "relation NONE"; Undefined DivByZero; Undefined DivOverflow ].
Proof.
  exact (proj2 (run_failures "(0-9223372036854775807-1)/(0-1)"
                  (Undefined DivOverflow) eq_refl)
           _ _ eq_refl).
Defined.

(** * The logical keywords on two literals *)

Lemma lower_app (s1 s2 : string) : lower (s1 ++ s2) = lower s1 ++ lower s2.
Proof. induction s1 as [|c s1 IH]; cbn [append lower]; congruence. Qed.

Lemma lower_digits (s : string) : all_digits s = true -> lower s = s.
Proof.
  induction s as [|c s IH]; [reflexivity|]. cbn [all_digits lower].
  intros H. apply andb_prop in H as [Hc Hs].
  rewrite (digit_lower _ Hc), (IH Hs). reflexivity.
Qed.

Lemma lower_keyword_input (a b kw : string) :
  is_literal a = true -> is_literal b = true ->
  lower (a ++ " " ++ kw ++ " " ++ b) = a ++ " " ++ lower kw ++ " " ++ b.
Proof.
  intros Ha Hb.
  destruct (literal_parts _ Ha) as [_ Hda], (literal_parts _ Hb) as [_ Hdb].
  rewrite !lower_app, (lower_digits _ Hda), (lower_digits _ Hdb). reflexivity.
Qed.

(** For all representable literals [a] and [b] and every casing [kw] of a
    keyword, the input [a kw b] evaluates to 1 or 0: [and] to 1 when both
    values are non-zero, [or] when at least one is, [xor] when exactly one
    is. *)
Theorem logical_keywords_on_literals (a b kw : string) :
  is_literal a = true -> is_literal b = true ->
  let p := negb (literal_value a =? 0)%Z in
  let q := negb (literal_value b =? 0)%Z in
  (lower kw = "and" -> run (a ++ " " ++ kw ++ " " ++ b) = Ok (of_bool (p && q))) /\
  (lower kw = "or" -> run (a ++ " " ++ kw ++ " " ++ b) = Ok (of_bool (p || q))) /\
  (lower kw = "xor" -> run (a ++ " " ++ kw ++ " " ++ b) = Ok (of_bool (xorb p q))).
Proof.
  intros Ha Hb p q.
  pose proof (digits_value_nonneg a 0 (Z.le_refl 0)) as Pa.
  pose proof (digits_value_nonneg b 0 (Z.le_refl 0)) as Pb.
  fold (literal_value a) in Pa. fold (literal_value b) in Pb.
  assert (Hp : (0 <? literal_value a)%Z = p).
  { unfold p. destruct (Z.ltb_spec 0 (literal_value a)),
      (Z.eqb_spec (literal_value a) 0); cbn; try reflexivity; lia. }
  assert (Hq : (0 <? literal_value b)%Z = q).
  { unfold q. destruct (Z.ltb_spec 0 (literal_value b)),
      (Z.eqb_spec (literal_value b) 0); cbn; try reflexivity; lia. }
  split; [|split]; intros Hk;
    rewrite <- run_lower, (lower_keyword_input _ _ _ Ha Hb), Hk;
    binary_run Ha Hb;
    match goal with
    | |- context [Relation_check ?k] =>
        change (Relation_check k) with false; change (Logical_check k) with true
    end;
    cbn [obind calculate].
  - change (Logical_calculate "and" ?x ?y)
      with (Ok (A := Z) (of_bool ((0 <? x)%Z && (0 <? y)%Z))).
    rewrite Hp, Hq. reflexivity.
  - change (Logical_calculate "or" ?x ?y)
      with (Ok (A := Z) (of_bool ((0 <? x)%Z || (0 <? y)%Z))).
    rewrite Hp, Hq. reflexivity.
  - reflexivity.
Qed.

Lemma logical_keywords_witness :
  run ("3" ++ " " ++ "AnD" ++ " " ++ "0") = Ok 0%Z /\
  run ("3" ++ " " ++ "XOR" ++ " " ++ "0") = Ok 1%Z.
Proof.
  pose proof (logical_keywords_on_literals "3" "0" "AnD" eq_refl eq_refl) as H.
  pose proof (logical_keywords_on_literals "3" "0" "XOR" eq_refl eq_refl) as H'.
  cbv zeta in H, H'. split.
  - exact (proj1 H eq_refl).
  - exact (proj2 (proj2 H') eq_refl).
Defined.
